(** * PondEyes: frame codec, track lifecycle engine and replay seek

  A shallow embedding of the Python sources under [radar/] and the
  properties of the specification that are checked against it.

  Conventions of the embedding.
  - Python [bytes]/[bytearray] are [list byte]; Python [int] is [Z];
    indices and lengths are [nat].
  - Python [float] (monotonic clock readings, speeds) is idealised as a
    real number [R]; rounding is not modelled.
  - [datetime.datetime] is the number of microseconds since an arbitrary
    epoch ([Z]); [datetime.timedelta] is a number of microseconds.
  - A track serial label ["T<n>"] is carried in memory as its number [n];
    [Tracker.label] renders the text that reaches the index file.
  - [dict] objects whose iteration order is observable are association
    lists in insertion order; the slot map is a [gmap].
  - A Python call that may raise returns [Exn + value]. *)

From Stdlib Require Import ZArith Reals Lra Lia List.
From Stdlib Require Import Strings.String Strings.Ascii Strings.Byte DecimalString.
From stdpp Require Import base option list gmap strings.

Open Scope Z_scope.

(** ** Byte-level helpers shared by both transports *)

Module Bytes.

(** [b[lo:hi]] for non-negative bounds: Python clips at the end. *)
Definition slice {A} (lo hi : nat) (l : list A) : list A :=
  take (hi - lo) (drop lo l).

(** [int.from_bytes(bs, "little")]. *)
Fixpoint from_bytes_little (bs : list byte) : Z :=
  match bs with
  | [] => 0
  | b :: rest => Z.of_N (Byte.to_N b) + 256 * from_bytes_little rest
  end.

(** Truth value of one element of a [bytes] object. *)
Definition nonzero (b : byte) : bool := negb (Byte.eqb b x00).

(** [any(chunk)]. *)
Definition any (chunk : list byte) : bool := existsb nonzero chunk.

(** [buf.startswith(pat)]. *)
Fixpoint startswith (pat buf : list byte) : bool :=
  match pat, buf with
  | [], _ => true
  | _ :: _, [] => false
  | p :: pat', b :: buf' => Byte.eqb p b && startswith pat' buf'
  end.

(** [buf.endswith(pat)]. *)
Definition endswith (pat buf : list byte) : bool :=
  (length pat <=? length buf)%nat
  && startswith pat (drop (length buf - length pat) buf).

(** [buf.find(pat)]: lowest index of an occurrence, [None] for -1. *)
Fixpoint find (pat buf : list byte) : option nat :=
  if startswith pat buf then Some 0%nat
  else match buf with
       | [] => None
       | _ :: buf' => S <$> find pat buf'
       end.

Definition hexdigit (n : N) : ascii :=
  Ascii.ascii_of_N (if (n <? 10)%N then 48 + n else 87 + n)%N.

(** [bs.hex()]: two lowercase hexadecimal digits per byte. *)
Fixpoint hex (bs : list byte) : string :=
  match bs with
  | [] => EmptyString
  | b :: rest =>
      String (hexdigit (Byte.to_N b / 16))
        (String (hexdigit (Byte.to_N b mod 16)) (hex rest))
  end.

End Bytes.

(** ** Frame constants and the polarity rule (identical in both classes) *)

Module Frame.

Definition HDR : list byte := [xaa; xff; x03; x00].
Definition FTR : list byte := [x55; xcc].
Definition FLEN : nat := 30.

(** [_s15]: the top bit is a polarity flag, set means positive. *)
Definition s15 (u : Z) : Z :=
  if Z.land u 0x8000 =? 0 then - Z.land u 0x7FFF else Z.land u 0x7FFF.

(** A decoded target [(slot, x_mm, y_mm)]. *)
Definition target : Type := Z * Z * Z.

(** A target with the frame's hex text appended, as handed to the callback. *)
Definition observation : Type := Z * Z * Z * string.

(** [[t + (hex_str,) for t in tracks]]. *)
Definition attach (hex_str : string) (tracks : list target) : list observation :=
  map (fun t => (t, hex_str)) tracks.

End Frame.

(** ** radar/mqtt_client.py *)

Module RadarMQTT.
Import Bytes Frame.

(** One iteration of the loop body of [_parse] for target index [i]. *)
Definition parse_block (b : list byte) (i : nat) : list target :=
  let chunk := slice (4 + i * 8) (8 + i * 8) b in
  if any chunk then
    let x := s15 (from_bytes_little (take 2 chunk)) in
    let y := s15 (from_bytes_little (drop 2 chunk)) in
    [(Z.of_nat i + 1, x, y)]
  else [].

(** [_parse]: [for i in range(3)], appending to [out]. *)
Definition parse (b : list byte) : list target :=
  flat_map (parse_block b) (seq 0 3).

(** The acceptance test of [_on_msg] on the decoded payload [buf], whose
    stripped hex text is [hex_str]; [None] when the payload is dropped. *)
Definition on_msg (hex_str : string) (buf : list byte) : option (list observation) :=
  if (length buf =? FLEN)%nat && startswith HDR buf && endswith FTR buf
  then Some (attach hex_str (parse buf))
  else None.

End RadarMQTT.

(** ** radar/serial_reader.py *)

Module RadarSerial.
Import Bytes Frame.

Definition parse_block (buf : list byte) (i : nat) : list target :=
  let off := (4 + i * 8)%nat in
  let x := s15 (from_bytes_little (slice off (off + 2) buf)) in
  let y := s15 (from_bytes_little (slice (off + 2) (off + 4) buf)) in
  if negb (x =? 0) || negb (y =? 0) then [(Z.of_nat i + 1, x, y)] else [].

Definition parse (buf : list byte) : list target :=
  flat_map (parse_block buf) (seq 0 3).

(** One turn of the [while] loop of [_loop]: [chunk] is what [ser.read]
    returned (possibly nothing, on time-out).  The result is the new
    buffer and the batch passed to the callback, if any. *)
Definition loop_step (buf chunk : list byte)
  : list byte * option (list observation) :=
  let buf := buf ++ chunk in
  match find HDR buf with
  | None =>
      if (3 <? length buf)%nat
      then (drop (length buf - 3) buf, None)
      else (buf, None)
  | Some idx =>
      if (length buf <? idx + FLEN)%nat then (buf, None)
      else
        let frame := slice idx (idx + FLEN) buf in
        if endswith FTR frame
        then (drop (idx + FLEN) buf, Some (attach (hex frame) (parse frame)))
        else (take idx buf ++ drop (S idx) buf, None)
  end.



End RadarSerial.

(** ** Python runtime pieces used by the tracker *)

Module Py.

(** The exceptions the modelled code can raise. *)
Inductive Exn : Type :=
| KeyError (key : string)
| AttributeError
| ValueError
| IndexError.

(** A call that returns a value or raises. *)
Definition result (A : Type) : Type := Exn + A.

Definition ret {A} (a : A) : result A := inr a.
Definition raise {A} (e : Exn) : result A := inl e.

Definition bind {A B} (m : result A) (k : A -> result B) : result B :=
  match m with
  | inl e => inl e
  | inr a => k a
  end.

(** [float] equality is decided classically on the idealised reals. *)
#[export] Instance R_eq_dec : EqDecision R := Req_dec_T.

(** So is [x > y]. *)
#[export] Instance R_gt_dec (x y : R) : Decision (x > y)%R := Rgt_dec x y.

(** [int(r)] on a float: truncation towards zero. *)
Definition int_of_float (r : R) : Z :=
  if Rle_dec 0 r then Zfloor r else Zceil r.


(** [math.hypot] on two integers. *)
Definition hypot (a b : Z) : R := sqrt (IZR a * IZR a + IZR b * IZR b).

(** [str(n)] for an integer. *)
Definition str_of_int (n : Z) : string :=
  DecimalString.NilZero.string_of_int (Z.to_int n).

(** ["%02d" % n]. *)
Definition pad2 (n : Z) : string :=
  if (0 <=? n) && (n <? 10) then "0" ++ str_of_int n else str_of_int n.

(** ["%04d" % n] for the non-negative values a year takes. *)
Definition pad4 (n : Z) : string :=
  if n <? 10 then "000" ++ str_of_int n
  else if n <? 100 then "00" ++ str_of_int n
  else if n <? 1000 then "0" ++ str_of_int n
  else str_of_int n.

(** ["%03d" % n] and ["%06d" % n] for non-negative [n]. *)
Definition pad3 (n : Z) : string :=
  if n <? 10 then "00" ++ str_of_int n
  else if n <? 100 then "0" ++ str_of_int n
  else str_of_int n.

Definition pad6 (n : Z) : string := pad3 (n / 1000) ++ pad3 (n mod 1000).

(** Characters [int()] and [str.strip()] treat as white space (ASCII). *)
Definition is_space (c : ascii) : bool :=
  let n := Ascii.N_of_ascii c in
  ((9 <=? n) && (n <=? 13) || (28 <=? n) && (n <=? 32))%N.

Fixpoint lstrip (s : list ascii) : list ascii :=
  match s with
  | c :: s' => if is_space c then lstrip s' else s
  | [] => []
  end.

Definition strip (s : list ascii) : list ascii :=
  rev (lstrip (rev (lstrip s))).

Definition digit_of (c : ascii) : option Z :=
  let n := Ascii.N_of_ascii c in
  if ((48 <=? n) && (n <=? 57))%N then Some (Z.of_N n - 48) else None.

(** Decimal digits with single underscores allowed between digits.
    [acc] is the value so far, [after_digit] tells whether the previous
    character was a digit. *)
Fixpoint digits (after_digit : bool) (acc : Z) (s : list ascii) : option Z :=
  match s with
  | [] => if after_digit then Some acc else None
  | c :: s' =>
      match digit_of c with
      | Some d => digits true (10 * acc + d) s'
      | None =>
          if Ascii.eqb c "_"%char && after_digit then digits false acc s'
          else None
      end
  end.

(** [int(s)] on ASCII text: optional surrounding white space, optional
    sign, decimal digits; [ValueError] otherwise. *)
Definition int_of_str (s : string) : result Z :=
  let body := strip (list_ascii_of_string s) in
  let parsed :=
    match body with
    | c :: s' =>
        if Ascii.eqb c "-"%char then Z.opp <$> digits false 0 s'
        else if Ascii.eqb c "+"%char then digits false 0 s'
        else digits false 0 body
    | [] => None
    end in
  match parsed with
  | Some n => ret n
  | None => raise ValueError
  end.

(** [s.startswith("T")]. *)
Definition startswith_T (s : string) : bool :=
  match s with
  | String c _ => Ascii.eqb c "T"%char
  | EmptyString => false
  end.

(** [s[1:]]. *)
Definition tail (s : string) : string :=
  match s with
  | String _ s' => s'
  | EmptyString => EmptyString
  end.

(** [s.split(".")[0]]: the text before the first full stop. *)
Fixpoint before_dot (s : string) : string :=
  match s with
  | EmptyString => EmptyString
  | String c s' => if Ascii.eqb c "."%char then EmptyString else String c (before_dot s')
  end.

End Py.

Notation "'let!' x ':=' m 'in' k" := (Py.bind m (fun x => k))
  (at level 10, x name, m at level 100, k at level 200).

(** ** Insertion-ordered dictionaries *)

Module Dict.
Section Ops.
Context {K V : Type} `{EqDecision K}.

(** The dictionary as the list of its items, oldest key first. *)
Definition t : Type := list (K * V).

(** [d.get(k)]. *)
Fixpoint get (k : K) (d : t) : option V :=
  match d with
  | [] => None
  | (k', v) :: d' => if decide (k = k') then Some v else get k d'
  end.

(** [k in d]. *)
Definition mem (k : K) (d : t) : bool := bool_decide (is_Some (get k d)).

(** [d[k] = v]: in place for an existing key, else appended. *)
Fixpoint set (k : K) (v : V) (d : t) : t :=
  match d with
  | [] => [(k, v)]
  | (k', v') :: d' =>
      if decide (k = k') then (k, v) :: d' else (k', v') :: set k v d'
  end.

(** [del d[k]]. *)
Fixpoint del (k : K) (d : t) : t :=
  match d with
  | [] => []
  | (k', v') :: d' => if decide (k = k') then d' else (k', v') :: del k d'
  end.

(** [list(d)]. *)
Definition keys (d : t) : list K := map fst d.
End Ops.
Arguments t : clear implicits.
End Dict.

(** ** Wall-clock instants and their texts *)

Module Datetime.
Import Py.

(** Year, month and day of the day number [z] counted from 1970-01-01
    (proleptic Gregorian calendar). *)
Definition civil_from_days (z : Z) : Z * Z * Z :=
let z := z + 719468 in
let era := z / 146097 in
let doe := z - era * 146097 in
let yoe := (doe - doe / 1460 + doe / 36524 - doe / 146096) / 365 in
let doy := doe - (365 * yoe + yoe / 4 - yoe / 100) in
let mp := (5 * doy + 2) / 153 in
let d := doy - (153 * mp + 2) / 5 + 1 in
let m := if mp <? 10 then mp + 3 else mp - 9 in
let y := yoe + era * 400 + (if m <=? 2 then 1 else 0) in
(y, m, d).

(** Whole seconds of an instant given in microseconds. *)
Definition seconds (t : Z) : Z := t / 1000000.

(** ["HH:MM:SS"] of a second of the day, with separator [sep]. *)
Definition hms (sep : string) (sod : Z) : string :=
pad2 (sod / 3600) +:+ sep +:+ pad2 (sod mod 3600 / 60) +:+ sep +:+ pad2 (sod mod 60).

(** [t.isoformat(timespec="seconds")]: the sub-second part is cut off. *)
Definition isoformat_seconds (t : Z) : string :=
let s := seconds t in
let '(y, m, d) := civil_from_days (s / 86400) in
pad4 y +:+ "-" +:+ pad2 m +:+ "-" +:+ pad2 d +:+ "T" +:+ hms ":" (s mod 86400).

(** [t.isoformat(timespec="milliseconds")]. *)
Definition isoformat_milliseconds (t : Z) : string :=
isoformat_seconds t +:+ "." +:+ pad3 (t mod 1000000 / 1000).

(** [t.strftime('%H%M%S')]. *)
Definition strftime_HMS (t : Z) : string := hms "" (seconds t mod 86400).

(** [str(td)] for a [timedelta] of [td] microseconds. *)
Definition timedelta_str (td : Z) : string :=
let days := td / 86400000000 in
let secs := td mod 86400000000 / 1000000 in
let us := td mod 1000000 in
let s := str_of_int (secs / 3600) +:+ ":" +:+ pad2 (secs mod 3600 / 60)
         +:+ ":" +:+ pad2 (secs mod 60) in
let s := if days =? 0 then s
         else str_of_int days +:+ " day" +:+ (if Z.abs days =? 1 then "" else "s")
              +:+ ", " +:+ s in
if us =? 0 then s else s +:+ "." +:+ pad6 us.

End Datetime.

(** ** The [csv] module, on files already split into rows of cells *)

Module Csv.
Import Py.

(** What [csv.reader] yields for a file: one list of cells per line. *)
Definition table : Type := list (list string).

(** A row produced by [csv.DictReader]: the named cells in key order (a
    cell is [None] where the line was too short) and, where the line was
    too long, the surplus cells stored under the key [None]. *)
Record DictRow : Type := {
  cells : Dict.t string (option string);
  rest : option (list string)
}.

(** [dict(zip(fieldnames, row))] followed by the [restkey]/[restval]
    completion of [DictReader.__next__]. *)
Definition read_row (fieldnames row : list string) : DictRow :=
let d := fold_left (fun d kv => Dict.set kv.1 (Some kv.2) d) (zip fieldnames row) [] in
if (length fieldnames <? length row)%nat
then {| cells := d; rest := Some (drop (length fieldnames) row) |}
else {| cells := fold_left (fun d k => Dict.set k None d) (drop (length row) fieldnames) d;
        rest := None |}.

(** [list(csv.DictReader(fh))]: the first line names the fields, empty
    lines are skipped. *)
Definition DictReader (f : table) : list DictRow :=
match f with
| [] => []
| fieldnames :: rows => read_row fieldnames <$> filter (fun r => r <> []) rows
end.

(** Truth value of a row dictionary. *)
Definition truthy (r : DictRow) : bool :=
match cells r, rest r with
| [], None => false
| _, _ => true
end.

(** [r[key]]. *)
Definition getitem (key : string) (r : DictRow) : result (option string) :=
match Dict.get key (cells r) with
| Some v => ret v
| None => raise (KeyError key)
end.

(** [r[key] = v]. *)
Definition setitem (key v : string) (r : DictRow) : DictRow :=
{| cells := Dict.set key (Some v) (cells r); rest := rest r |}.

(** [r.keys()]; the key [None] comes last when present. *)
Definition keys (r : DictRow) : list (option string) :=
(Some <$> Dict.keys (cells r)) ++ (if rest r is Some _ then [None] else []).

(** [str] of a list of strings (the text of strings that need escaping
    is not reproduced). *)
Definition repr_list (l : list string) : string :=
"[" +:+ String.concat ", " ((fun s => "'" +:+ s +:+ "'") <$> l) +:+ "]".

(** The text written for field [k] of [r]: [r.get(k, "")], [None] written
    as the empty cell. *)
Definition cell (r : DictRow) (k : option string) : string :=
match k with
| Some k => match Dict.get k (cells r) with
            | Some (Some v) => v
            | _ => ""
            end
| None => match rest r with
          | Some l => repr_list l
          | None => ""
          end
end.

(** [DictWriter._dict_to_list]: a key outside [fieldnames] raises. *)
Definition dict_to_list (fieldnames : list (option string)) (r : DictRow)
  : result (list string) :=
if forallb (fun k => bool_decide (k ∈ fieldnames)) (keys r)
then ret (cell r <$> fieldnames)
else raise ValueError.

(** [writerows]: the rows so far, or the first exception. *)
Fixpoint writerows (fieldnames : list (option string)) (rows : list DictRow)
  : result table :=
match rows with
| [] => ret []
| r :: rows' =>
    let! line := dict_to_list fieldnames r in
    let! lines := writerows fieldnames rows' in
    ret (line :: lines)
end.

(** A file rewritten by [writeheader] then [writerows]. *)
Definition write (fieldnames : list (option string)) (rows : list DictRow)
  : result table :=
let! lines := writerows fieldnames rows in
ret ((default "" <$> fieldnames) :: lines).

End Csv.

(** ** radar/tracking.py *)

Module Tracker.
Import Py.

Definition END_TIMEOUT : R := 3.

(** The serial label [f"T{n}"]. *)
Definition label (n : Z) : string := "T" +:+ str_of_int n.

(** One observation of a batch: [(slot, x_mm, y_mm, *rest)]. *)
Definition item : Type := Z * Z * Z * list string.

(** A line of a per-track history file.  Speed and acceleration are kept
    as numbers; the file holds them with three decimals, and the range
    as [int(rng)]. *)
Record HistoryRow : Type := {
  timestamp_iso : string;
  x_mm : Z;
  y_mm : Z;
  range_mm : Z;
  speed_mm_s : R;
  accel_mm_s2 : R;
  raw_hex : string
}.

(** The value of [self.active[ser]]: [fh] is the open history file, given
    by its name and the lines written after the header. *)
Record Info : Type := {
  first : Z;
  fname : string;
  fh : list HistoryRow;
  hist : Z * Z * R * R;
  last_ts : R
}.

(** An entry of [self.recent]. *)
Record Recent : Type := {
  serial : Z;
  r_first : Z;
  r_last : Z;
  dur : Z
}.

(** The tracker object together with the files it owns: [TrackIndex] is
    the content of today's index file, [closed] the history files that
    were closed, with their lines. *)
Record t : Type := {
  TrackIndex : Csv.table;
  max_serial : Z;
  slot2ser : gmap Z Z;
  active : Dict.t Z Info;
  recent : list Recent;
  serial_iter : Z;
  closed : list (string * list HistoryRow)
}.

(** The two clocks as read during one call: [time.monotonic()] and
    [datetime.now()].  A call is taken to be instantaneous, so every read
    inside it returns the same pair. *)
Record Clock : Type := {
  mono : R;
  wall : Z
}.

Definition index_header : list string :=
["first_seen_iso"; "serial"; "last_seen_iso"; "duration"; "verbose_file"]%string.

(** The [for r in csv.DictReader(fh)] loop of [_scan_TrackIndex]. *)
Fixpoint scan_rows (rows : list Csv.DictRow) (max_ser : Z) : result Z :=
match rows with
| [] => ret max_ser
| r :: rows' =>
    if Csv.truthy r then
      let! v := Csv.getitem "serial" r in
      match v with
      | None => raise AttributeError
      | Some s =>
          if startswith_T s then
            let! n := int_of_str (tail s) in
            scan_rows rows' (Z.max max_ser n)
          else scan_rows rows' max_ser
      end
    else scan_rows rows' max_ser
end.

(** [_scan_TrackIndex]; [file] is the index file found at start-up, if
    any.  The result is the file as left on disk and the highest serial. *)
Definition scan_TrackIndex (file : option Csv.table) : result (Csv.table * Z) :=
match file with
| None => ret ([index_header], 0)
| Some f =>
    let! max_ser := scan_rows (Csv.DictReader f) 0 in
    ret (f, max_ser)
end.

(** [Tracker.__init__]. *)
Definition init (file : option Csv.table) : result t :=
let! scanned := scan_TrackIndex file in
let '(idx, max_ser) := scanned in
ret {| TrackIndex := idx; max_serial := max_ser; slot2ser := ∅; active := [];
       recent := []; serial_iter := max_ser + 1; closed := [] |}.

(** [_open_verbose]. *)
Definition open_verbose (clk : Clock) (ser : Z) (st : t) : t :=
let ts := wall clk in
let fname := label ser +:+ "_" +:+ Datetime.strftime_HMS ts +:+ ".csv" in
let info := {| first := ts; fname := fname; fh := [];
               hist := (0, 0, 0%R, mono clk); last_ts := mono clk |} in
let row := [Datetime.isoformat_seconds ts; label ser;
            Datetime.isoformat_seconds ts; "00:00:00.000"%string; fname] in
{| TrackIndex := TrackIndex st ++ [row]; max_serial := max_serial st;
   slot2ser := slot2ser st; active := Dict.set ser info (active st);
   recent := recent st; serial_iter := serial_iter st; closed := closed st |}.

(** The block "ensure slot has a live serial" of [update]. *)
Definition resolve (clk : Clock) (slot : Z) (st : t) : Z * t :=
let fresh :=
  let ser := serial_iter st in
  (ser, open_verbose clk ser
          {| TrackIndex := TrackIndex st; max_serial := max_serial st;
             slot2ser := <[slot := ser]> (slot2ser st); active := active st;
             recent := recent st; serial_iter := serial_iter st + 1;
             closed := closed st |}) in
match slot2ser st !! slot with
| Some ser => if Dict.mem ser (active st) then (ser, st) else fresh
| None => fresh
end.

(** [first_point = (px == py == pv == 0.0)]. *)
Definition first_point (h : Z * Z * R * R) : bool :=
let '(px, py, pv, _) := h in
bool_decide (px = py) && bool_decide (IZR py = pv) && bool_decide (pv = 0%R).

(** The block "kinematics" of [update]: speed and acceleration. *)
Definition kinematics (now_mon : R) (x y : Z) (h : Z * Z * R * R) : R * R :=
let '(px, py, pv, pt) := h in
let dt_s := Rmax (now_mon - pt) (1 / 1000) in
if first_point h then (0%R, 0%R)
else
  let v := (hypot (x - px) (y - py) / dt_s)%R in
  (v, ((v - pv) / dt_s)%R).

(** The body of the [for item in latest] loop. *)
Definition update_item (clk : Clock) (it : item) (acc : t * R) : result (t * R) :=
let '(st, fastest) := acc in
let '(slot, x, y, rest) := it in
let raw := match rest with r :: _ => r | [] => ""%string end in
let '(ser, st) := resolve clk slot st in
match Dict.get ser (active st) with
| None => raise (KeyError (label ser))
| Some info =>
    let '(v, accel) := kinematics (mono clk) x y (hist info) in
    let rng := hypot x y in
    let line := {| timestamp_iso := Datetime.isoformat_milliseconds (wall clk);
                   x_mm := x; y_mm := y; range_mm := int_of_float rng;
                   speed_mm_s := v; accel_mm_s2 := accel; raw_hex := raw |} in
    let info := {| first := first info; fname := fname info; fh := fh info ++ [line];
                   hist := (x, y, v, mono clk); last_ts := mono clk |} in
    ret ({| TrackIndex := TrackIndex st; max_serial := max_serial st;
            slot2ser := slot2ser st; active := Dict.set ser info (active st);
            recent := recent st; serial_iter := serial_iter st;
            closed := closed st |}, Rmax fastest v)
end.

(** The [for r in rows] loop of [_expire]: the first row of this serial
    and creation time gets its last two named cells rewritten. *)
Fixpoint finalize_row (ser first_iso last_iso duration : string)
    (rows : list Csv.DictRow) : result (list Csv.DictRow) :=
match rows with
| [] => ret []
| r :: rows' =>
    let! s := Csv.getitem "serial" r in
    let! hit :=
      if bool_decide (s = Some ser) then
        let! f := Csv.getitem "first_seen_iso" r in
        ret (bool_decide (f = Some first_iso))
      else ret false in
    if hit : bool then
      ret (Csv.setitem "duration" duration (Csv.setitem "last_seen_iso" last_iso r) :: rows')
    else
      let! rows'' := finalize_row ser first_iso last_iso duration rows' in
      ret (r :: rows'')
end.

(** [_expire]. *)
Definition expire (clk : Clock) (ser : Z) (st : t) : result t :=
match Dict.get ser (active st) with
| None => raise (KeyError (label ser))
| Some info =>
    let first := first info in
    let last := wall clk in
    let dur := last - first in
    let rows := Csv.DictReader (TrackIndex st) in
    let! rows := finalize_row (label ser) (Datetime.isoformat_seconds first)
                   (Datetime.isoformat_seconds last)
                   (before_dot (Datetime.timedelta_str dur)) rows in
    (* [headers = rows[0].keys()] is a live view of the first row: the
       writer reads it after the loop, with any key the loop added. *)
    let headers :=
      match rows with
      | r :: _ => Csv.keys r
      | [] => Some <$> index_header
      end in
    let! idx := Csv.write headers rows in
    let entry := {| serial := ser; r_first := first; r_last := last; dur := dur |} in
    let recent := entry :: recent st in
    let recent := if (3 <? length recent)%nat then removelast recent else recent in
    ret {| TrackIndex := idx; max_serial := max_serial st;
           slot2ser := filter (fun kv => kv.2 <> ser) (slot2ser st);
           active := Dict.del ser (active st);
           recent := recent; serial_iter := serial_iter st;
           closed := closed st ++ [(fname info, fh info)] |}
end.

(** The "expire stale tracks" loop of [update], over [list(self.active)]. *)
Fixpoint sweep (clk : Clock) (sers : list Z) (st : t) : result t :=
match sers with
| [] => ret st
| ser :: sers' =>
    match Dict.get ser (active st) with
    | None => raise (KeyError (label ser))
    | Some info =>
        if bool_decide (mono clk - last_ts info > END_TIMEOUT)%R
        then let! st := expire clk ser st in sweep clk sers' st
        else sweep clk sers' st
    end
end.

(** The [for item in latest] loop. *)
Fixpoint update_items (clk : Clock) (latest : list item) (acc : t * R) : result (t * R) :=
match latest with
| [] => ret acc
| it :: latest' =>
    let! acc := update_item clk it acc in
    update_items clk latest' acc
end.

(** [update]: the new state and the fastest speed of the batch. *)
Definition update (clk : Clock) (latest : list item) (st : t) : result (t * R) :=
let! acc := update_items clk latest (st, 0%R) in
let '(st, fastest) := acc in
let! st := sweep clk (Dict.keys (active st)) st in
ret (st, fastest).

End Tracker.

(** ** radar/gui.py: the frame callback and the stream watchdog *)

Module RadarGUI.
Import Py.

Definition DATA_TIMEOUT_SEC : R := 1.

(** The part of the window object the watchdog works on.  The drawing
    caches keyed by serial ([trails], [motion_hist], [pulse_phase]) are
    left out. *)
Record t : Type := {
  tracker : Tracker.t;
  latest : list (Z * Z * Z);
  fastest : R;
  t_last_frame : R;
  data_lost : bool
}.

(** [_on_frame]. *)
Definition on_frame (clk : Tracker.Clock) (lst : list Tracker.item) (g : t) : result t :=
let! r := Tracker.update clk lst (tracker g) in
ret {| tracker := r.1; latest := (fun it : Tracker.item => it.1) <$> lst;
       fastest := r.2; t_last_frame := Tracker.mono clk; data_lost := false |}.

(** The body of the [for ser, info in list(active.items())] loop of
    [_end_all_targets]. *)
Definition end_target (now : Z) (tr : Tracker.t) (kv : Z * Tracker.Info) : Tracker.t :=
let record := {| Tracker.serial := kv.1; Tracker.r_first := Tracker.first kv.2;
                 Tracker.r_last := now; Tracker.dur := now - Tracker.first kv.2 |} in
{| Tracker.TrackIndex := Tracker.TrackIndex tr;
   Tracker.max_serial := Tracker.max_serial tr;
   Tracker.slot2ser := Tracker.slot2ser tr;
   Tracker.active := Dict.del kv.1 (Tracker.active tr);
   Tracker.recent := Tracker.recent tr ++ [record];
   Tracker.serial_iter := Tracker.serial_iter tr;
   Tracker.closed := Tracker.closed tr |}.

(** [_end_all_targets]. *)
Definition end_all_targets (clk : Tracker.Clock) (g : t) : t :=
let tr := fold_left (end_target (Tracker.wall clk))
            (Tracker.active (tracker g)) (tracker g) in
let tr := {| Tracker.TrackIndex := Tracker.TrackIndex tr;
             Tracker.max_serial := Tracker.max_serial tr;
             Tracker.slot2ser :=
               filter (fun kv => Dict.mem kv.2 (Tracker.active tr) = true)
                      (Tracker.slot2ser tr);
             Tracker.active := Tracker.active tr;
             Tracker.recent := Tracker.recent tr;
             Tracker.serial_iter := Tracker.serial_iter tr;
             Tracker.closed := Tracker.closed tr |} in
{| tracker := tr; latest := []; fastest := fastest g;
   t_last_frame := t_last_frame g; data_lost := data_lost g |}.

(** The "STREAM WATCHDOG" block of one turn of the main loop of [run]. *)
Definition watchdog (clk : Tracker.Clock) (g : t) : t :=
if negb (data_lost g)
   && bool_decide (Tracker.mono clk - t_last_frame g > DATA_TIMEOUT_SEC)%R
then end_all_targets clk
       {| tracker := tracker g; latest := latest g; fastest := fastest g;
          t_last_frame := t_last_frame g; data_lost := true |}
else g.

End RadarGUI.

(** ** radar/playback_gui.py: the play cursor *)

Module RadarPlaybackGUI.
Import Py.


(** The playback state: [data] holds [(t_rel_sec, row[1:])]. *)
Record t : Type := {
  data : list (R * list string);
  idx : Z;
  paused : bool;
  worker_alive : bool;
  latest_frame : list string
}.






End RadarPlaybackGUI.

(** * Vocabulary of the properties *)

(** ** Frames *)

Module FrameSpec.
Import Bytes Frame.

(** The two coordinate words of target block [i]. *)
Definition word_x (buf : list byte) (i : nat) : Z :=
from_bytes_little (slice (4 + i * 8) (4 + i * 8 + 2) buf).

Definition word_y (buf : list byte) (i : nat) : Z :=
from_bytes_little (slice (4 + i * 8 + 2) (4 + i * 8 + 4) buf).

(** The eight bytes of target block [i]. *)
Definition block (buf : list byte) (i : nat) : list byte :=
slice (4 + i * 8) (12 + i * 8) buf.

(** A buffer of frame length with both magics in place. *)
Definition is_frame (buf : list byte) : Prop :=
length buf = FLEN /\ take 4 buf = HDR /\ drop 28 buf = FTR.

(** Block [i] carries a coordinate that decodes to a non-zero value. *)
Definition block_live (buf : list byte) (i : nat) : Prop :=
s15 (word_x buf i) <> 0 \/ s15 (word_y buf i) <> 0.

(** What decoding a frame must deliver: one to three targets, each the
    polarity decoding of the words of a block that is not all zero, with
    the block's 1-based slot and coordinates within [-32767, 32767]. *)
Definition decoded (buf : list byte) (obs : list target) : Prop :=
(1 <= length obs <= 3)%nat /\
forall slot x y, (slot, x, y) ∈ obs ->
  exists i, (i < 3)%nat /\ slot = Z.of_nat i + 1 /\
    x = s15 (word_x buf i) /\ y = s15 (word_y buf i) /\
    -32767 <= x <= 32767 /\ -32767 <= y <= 32767 /\
    any (block buf i) = true.

(** A frame around 24 bytes of target blocks. *)
Definition frame_of (blocks : list byte) : list byte := HDR ++ blocks ++ FTR.

(** A frame whose only non-zero block byte is a speed byte of block 0. *)
Definition frame_speed_only : list byte :=
frame_of ([x00; x00; x00; x00; x10; x00; x00; x00] ++ repeat x00 16).

(** A frame with one target at x = +5, y = -5 in block 0. *)
Definition frame_one_target : list byte :=
frame_of ([x05; x80; x05; x00; x00; x00; x00; x00] ++ repeat x00 16).
End FrameSpec.

(** ** Tracker runs *)

Module TrackerSpec.
Import Tracker.

(** A reading of both clocks [s] seconds after the epoch of each. *)
Definition at_second (s : Z) : Clock := {| mono := IZR s; wall := s * 1000000 |}.

(** The speeds and accelerations written to a history file, in order. *)
Definition speeds (rows : list HistoryRow) : list R := speed_mm_s <$> rows.
Definition accels (rows : list HistoryRow) : list R := accel_mm_s2 <$> rows.

(** A batch with one observation of the legacy three-field shape. *)
Definition one (slot x y : Z) : list item := [(slot, x, y, [])].

(** The tracker right after start-up on a day without an index file. *)
Definition fresh_tracker : t :=
{| TrackIndex := [index_header]; max_serial := 0; slot2ser := ∅; active := [];
   recent := []; serial_iter := 1; closed := [] |}.
End TrackerSpec.

(** ** Watchdog runs *)

Module GuiSpec.
Import Tracker TrackerSpec.

(** The entry [_end_all_targets] builds for a live track. *)
Definition archived (now : Z) (kv : Z * Info) : Recent :=
{| serial := kv.1; r_first := first kv.2; r_last := now; dur := now - first kv.2 |}.

(** The window right after construction at monotonic time 0, no index
    file being there. *)
Definition fresh_gui : RadarGUI.t :=
{| RadarGUI.tracker := fresh_tracker; RadarGUI.latest := [];
   RadarGUI.fastest := 0; RadarGUI.t_last_frame := 0;
   RadarGUI.data_lost := false |}.
End GuiSpec.

(** ** The index file *)

Module IndexSpec.
Import Tracker.

(** Every line of an index file has the five cells the tracker writes. *)
Definition five_cells (rows : list (list string)) : Prop :=
Forall (fun r => length r = 5%nat) rows.

(** The line [r] is the index row of the track with label [ser] created
    at the second written [first_iso]. *)
Definition names_track (ser first_iso : string) (r : list string) : Prop :=
r !! 1%nat = Some ser /\ r !! 0%nat = Some first_iso.

(** The text of the duration cell after expiry, for a lifetime of [td]
    microseconds. *)
Definition duration_cell (td : Z) : string :=
Py.before_dot (Datetime.timedelta_str td).

(** The entry [_expire] puts in front of the recent list. *)
Definition expired (ser : Z) (info : Info) (now : Z) : Recent :=
{| serial := ser; r_first := first info; r_last := now; dur := now - first info |}.

(** A track is created 0.9 s into a second and the next batch arrives
    4.2 s later, 0.1 s into a second. *)
Definition born : Clock := {| mono := 0; wall := 900000 |}.
Definition swept : Clock := {| mono := 42 / 10; wall := 5100000 |}.
End IndexSpec.

(** ** The start-up scan *)

Module ScanSpec.
Import Py Tracker.






End ScanSpec.

(** ** Replay *)

Module ReplaySpec.
Import RadarPlaybackGUI.

End ReplaySpec.

(** ** Resynchronisation *)

Module ResyncSpec.
Import Bytes Frame FrameSpec.






End ResyncSpec.

(** * Properties *)

(** ** Frame codec *)

Section Codec.
Import Bytes Frame FrameSpec.

Lemma s15_rule u :
  s15 u = if Z.testbit u 15 then Z.land u 0x7FFF else - Z.land u 0x7FFF.
Proof.
  unfold s15.
  destruct (Z.testbit u 15) eqn:Hb.
  - destruct (Z.eqb_spec (Z.land u 32768) 0) as [H0|]; [|done].
    exfalso.
    assert (Z.testbit (Z.land u 32768) 15 = true) as Ht.
    { rewrite Z.land_spec, Hb. reflexivity. }
    rewrite H0 in Ht. discriminate.
  - destruct (Z.eqb_spec (Z.land u 32768) 0) as [|Hn]; [done|].
    exfalso. apply Hn. apply Z.bits_inj'. intros n Hn'.
    rewrite Z.land_spec, Z.bits_0.
    destruct (Z.eq_dec n 15) as [->|Hne].
    + rewrite Hb. reflexivity.
    + replace (Z.testbit 32768 n) with false; [apply andb_false_r|].
      change 32768 with (2 ^ 15). symmetry. apply Z.pow2_bits_false. lia.
Qed.

Lemma land_7FFF_bounds u : 0 <= Z.land u 0x7FFF <= 32767.
Proof.
  assert (Z.land u 32767 = u mod 32768) as ->.
  { change 32767 with (Z.ones 15). by rewrite Z.land_ones. }
  pose proof (Z.mod_pos_bound u 32768). lia.
Qed.

Lemma s15_bounds u : -32767 <= s15 u <= 32767.
Proof. unfold s15. pose proof (land_7FFF_bounds u). case_match; lia. Qed.

Lemma any_false_take n l : any l = false -> any (take n l) = false.
Proof.
  revert n. induction l as [|b l IH]; intros [|n]; simpl; try done.
  intros [-> H]%orb_false_iff. simpl. by apply IH.
Qed.

Lemma any_false_drop n l : any l = false -> any (drop n l) = false.
Proof.
  revert n. induction l as [|b l IH]; intros [|n]; simpl; try done.
  intros [_ H]%orb_false_iff. by apply IH.
Qed.

Lemma any_false_word l : any l = false -> from_bytes_little l = 0.
Proof.
  induction l as [|b l IH]; simpl; [done|].
  intros [Hb H]%orb_false_iff. rewrite IH by done.
  unfold nonzero in Hb. apply negb_false_iff, Byte.byte_dec_bl in Hb. by subst.
Qed.

Lemma slice_take {A} lo n m (l : list A) :
  (n <= m)%nat -> take n (slice lo (lo + m) l) = slice lo (lo + n) l.
Proof.
  intros. unfold slice. rewrite take_take.
  f_equal. lia.
Qed.

Lemma slice_drop {A} lo n m (l : list A) :
  (n <= m)%nat -> drop n (slice lo (lo + m) l) = slice (lo + n) (lo + m) l.
Proof.
  intros. unfold slice. rewrite skipn_firstn_comm, drop_drop.
  f_equal. lia.
Qed.


Lemma s15_0 : s15 0 = 0.
Proof. reflexivity. Qed.

(** The two [_parse] loop bodies in a common shape. *)
Lemma mqtt_parse_block buf i :
  RadarMQTT.parse_block buf i =
  if any (slice (4 + i * 8) (4 + i * 8 + 4) buf)
  then [(Z.of_nat i + 1, s15 (word_x buf i), s15 (word_y buf i))] else [].
Proof.
  unfold RadarMQTT.parse_block, word_x, word_y.
  replace (8 + i * 8)%nat with (4 + i * 8 + 4)%nat by lia.
  rewrite slice_take, slice_drop by lia. done.
Qed.

Lemma serial_parse_block buf i :
  RadarSerial.parse_block buf i =
  if negb (s15 (word_x buf i) =? 0) || negb (s15 (word_y buf i) =? 0)
  then [(Z.of_nat i + 1, s15 (word_x buf i), s15 (word_y buf i))] else [].
Proof. reflexivity. Qed.

Lemma chunk_zero_words buf i :
  any (slice (4 + i * 8) (4 + i * 8 + 4) buf) = false ->
  s15 (word_x buf i) = 0 /\ s15 (word_y buf i) = 0.
Proof.
  intros H. unfold word_x, word_y.
  rewrite <- (slice_take _ 2 4), <- (slice_drop _ 2 4) by lia.
  rewrite !any_false_word; auto using any_false_take, any_false_drop.
Qed.

Lemma block_zero_chunk buf i :
  any (block buf i) = false -> any (slice (4 + i * 8) (4 + i * 8 + 4) buf) = false.
Proof.
  unfold block. replace (12 + i * 8)%nat with (4 + i * 8 + 8)%nat by lia.
  intros H. rewrite <- (slice_take _ 4 8) by lia. by apply any_false_take.
Qed.

Lemma block_live_chunk buf i :
  block_live buf i -> any (slice (4 + i * 8) (4 + i * 8 + 4) buf) = true.
Proof.
  intros Hl. destruct (any _) eqn:E; [done|].
  apply chunk_zero_words in E as [? ?]. destruct Hl; done.
Qed.

Lemma block_live_serial buf i :
  block_live buf i <->
  negb (s15 (word_x buf i) =? 0) || negb (s15 (word_y buf i) =? 0) = true.
Proof.
  unfold block_live. rewrite orb_true_iff, !negb_true_iff, !Z.eqb_neq. done.
Qed.

(** What a list of per-block results says about the whole frame. *)
Lemma blocks_decoded buf (pb : nat -> list target) :
  (forall i, pb i = [] \/
     (pb i = [(Z.of_nat i + 1, s15 (word_x buf i), s15 (word_y buf i))]
      /\ any (block buf i) = true)) ->
  (exists i, (i < 3)%nat /\ pb i <> []) ->
  decoded buf (flat_map pb (seq 0 3)).
Proof.
  intros Hpb [i [Hi Hne]].
  assert (forall j t, t ∈ pb j ->
            t = (Z.of_nat j + 1, s15 (word_x buf j), s15 (word_y buf j))
            /\ any (block buf j) = true) as Hin.
  { intros j t Ht. destruct (Hpb j) as [E|[E Hb]]; rewrite E in Ht.
    - by apply elem_of_nil in Ht.
    - apply list_elem_of_singleton in Ht. done. }
  assert (forall j, (length (pb j) <= 1)%nat) as Hlen.
  { intros j. destruct (Hpb j) as [E|[E _]]; rewrite E; simpl; lia. }
  assert (1 <= length (pb i))%nat as Hi1.
  { destruct (pb i); [done|simpl; lia]. }
  split.
  - simpl. rewrite !length_app. simpl.
    pose proof (Hlen 0%nat). pose proof (Hlen 1%nat). pose proof (Hlen 2%nat).
    assert (i = 0 \/ i = 1 \/ i = 2)%nat as [->|[->| ->]] by lia; lia.
  - intros slot x y Ht. simpl in Ht. rewrite app_nil_r in Ht.
    assert (exists j, (j < 3)%nat /\ (slot, x, y) ∈ pb j) as [j [Hj Hjin]].
    { apply elem_of_app in Ht as [Ht|Ht]; [exists 0%nat; split; [lia|done]|].
      apply elem_of_app in Ht as [Ht|Ht]; [exists 1%nat|exists 2%nat]; split; done || lia. }
    apply Hin in Hjin as [E Hb]. inversion E; subst.
    exists j. repeat split; auto; apply s15_bounds.
Qed.

Lemma any_true_block_of_chunk buf i :
  any (slice (4 + i * 8) (4 + i * 8 + 4) buf) = true -> any (block buf i) = true.
Proof.
  intros H. destruct (any (block buf i)) eqn:E; [done|].
  apply block_zero_chunk in E. congruence.
Qed.

Lemma mqtt_parse_decoded buf :
  (exists i, (i < 3)%nat /\ block_live buf i) -> decoded buf (RadarMQTT.parse buf).
Proof.
  intros [i [Hi Hl]]. apply blocks_decoded.
  - intros j. rewrite mqtt_parse_block.
    destruct (any _) eqn:E; [right|left; done].
    split; [done|]. by apply any_true_block_of_chunk.
  - exists i. split; [done|]. rewrite mqtt_parse_block, block_live_chunk; done.
Qed.

Lemma serial_parse_decoded buf :
  (exists i, (i < 3)%nat /\ block_live buf i) -> decoded buf (RadarSerial.parse buf).
Proof.
  intros [i [Hi Hl]]. apply blocks_decoded.
  - intros j. rewrite serial_parse_block.
    destruct (negb _ || negb _) eqn:E; [right|left; done].
    split; [done|]. apply any_true_block_of_chunk, block_live_chunk.
    by apply block_live_serial.
  - exists i. split; [done|]. rewrite serial_parse_block.
    apply block_live_serial in Hl. rewrite Hl. done.
Qed.

Lemma startswith_take pat buf :
  startswith pat buf = true <-> take (length pat) buf = pat.
Proof.
  revert buf. induction pat as [|p pat IH]; intros [|b buf]; simpl; try done.
  rewrite andb_true_iff, IH. split.
  - intros [->%Byte.byte_dec_bl ->]. done.
  - intros [= -> Hr]. split; [by apply Byte.byte_dec_lb|done].
Qed.

Lemma is_frame_accepted buf :
  is_frame buf ->
  (length buf =? FLEN)%nat && startswith HDR buf && endswith FTR buf = true.
Proof.
  intros (Hlen & Hh & Hf). rewrite !andb_true_iff. repeat split.
  - by apply Nat.eqb_eq.
  - by apply startswith_take.
  - unfold endswith. rewrite Hlen. apply andb_true_iff. split; [done|].
    apply startswith_take. change (FLEN - length FTR)%nat with 28%nat.
    rewrite Hf. done.
Qed.

Lemma find_startswith pat buf : startswith pat buf = true -> find pat buf = Some 0%nat.
Proof. intros H. destruct buf; simpl in *; rewrite H; done. Qed.

Lemma is_frame_loop_step buf :
  is_frame buf ->
  RadarSerial.loop_step [] buf
  = ([], Some (attach (hex buf) (RadarSerial.parse buf))).
Proof.
  intros Hf. pose proof (is_frame_accepted _ Hf) as Ha.
  apply andb_true_iff in Ha as [[Hl%Nat.eqb_eq Hs]%andb_true_iff He].
  unfold RadarSerial.loop_step. simpl app.
  rewrite find_startswith by done.
  destruct (Nat.ltb_spec (length buf) (0 + FLEN)) as [Hlt|_]; [simpl in Hlt; lia|].
  assert (slice 0 (0 + FLEN) buf = buf) as ->.
  { unfold slice, FLEN in *. rewrite drop_0, take_ge; [done|lia]. }
  rewrite He. unfold FLEN in *. rewrite drop_ge; [done|simpl; lia].
Qed.

(** C2, as the code has it.  For every 30-byte buffer that begins with the
    header magic and ends with the footer magic and has at least one
    target block whose x or y word decodes to a non-zero coordinate, both
    bindings accept the frame and deliver between 1 and 3 targets; each
    has slot = block index + 1 in {1,2,3}, coordinates within
    [-32767, 32767] obtained from the block's two little-endian words by
    the polarity rule (top bit set: the low 15 bits, else their negation;
    0x8005 gives +5 and 0x0005 gives -5), and comes from a block that is
    not all zero. *)
Theorem frame_decoding (buf : list byte) (hex_str : string) :
  is_frame buf ->
  (exists i, (i < 3)%nat /\ block_live buf i) ->
  RadarMQTT.on_msg hex_str buf = Some (attach hex_str (RadarMQTT.parse buf))
  /\ RadarSerial.loop_step [] buf
     = ([], Some (attach (hex buf) (RadarSerial.parse buf)))
  /\ decoded buf (RadarMQTT.parse buf)
  /\ decoded buf (RadarSerial.parse buf)
  /\ (forall u, s15 u = if Z.testbit u 15 then Z.land u 0x7FFF
                        else - Z.land u 0x7FFF)
  /\ s15 0x8005 = 5 /\ s15 0x0005 = -5.
Proof.
  intros Hf Hlive.
  split; [unfold RadarMQTT.on_msg; rewrite is_frame_accepted; done|].
  split; [by apply is_frame_loop_step|].
  split; [by apply mqtt_parse_decoded|].
  split; [by apply serial_parse_decoded|].
  split; [apply s15_rule|].
  split; reflexivity.
Qed.

Lemma frame_one_target_is_frame : is_frame frame_one_target.
Proof. repeat split. Qed.

Lemma frame_one_target_live : exists i, (i < 3)%nat /\ block_live frame_one_target i.
Proof. exists 0%nat. split; [lia|]. left. vm_compute. discriminate. Qed.

(** The theorem at a frame with one target in block 0. *)
Lemma frame_decoding_witness :
  RadarMQTT.parse frame_one_target = [(1, 5, -5)]
  /\ RadarSerial.parse frame_one_target = [(1, 5, -5)]
  /\ decoded frame_one_target (RadarMQTT.parse frame_one_target)
  /\ decoded frame_one_target (RadarSerial.parse frame_one_target).
Proof.
  pose proof (frame_decoding frame_one_target ""
                frame_one_target_is_frame frame_one_target_live)
    as (_ & _ & Hm & Hs & _).
  split; [reflexivity|]. split; [reflexivity|]. split; [exact Hm|exact Hs].
Defined.

(** C2 as stated fails: this frame has both magics and a target block
    that is not all zero (a speed byte is set), and both bindings deliver
    an empty batch for it. *)
Lemma frame_speed_only_no_target :
  is_frame frame_speed_only
  /\ any (block frame_speed_only 0) = true
  /\ RadarMQTT.on_msg (hex frame_speed_only) frame_speed_only = Some []
  /\ RadarSerial.loop_step [] frame_speed_only = ([], Some [])
  /\ ~ (1 <= length (RadarMQTT.parse frame_speed_only))%nat
  /\ ~ (1 <= length (RadarSerial.parse frame_speed_only))%nat.
Proof.
  split; [repeat split|]. split; [reflexivity|]. split; [reflexivity|].
  split; [reflexivity|]. split; vm_compute; lia.
Qed.

(** The two bindings disagree on a block whose words are 0x8000, 0x0000:
    the network binding reports a target at (0, 0), the serial one none. *)
Lemma bindings_differ_on_positive_zero :
  let buf := frame_of ([x00; x80; x00; x00; x00; x00; x00; x00] ++ repeat x00 16) in
  RadarMQTT.parse buf = [(1, 0, 0)] /\ RadarSerial.parse buf = [].
Proof. split; reflexivity. Qed.

End Codec.

(** ** Resynchronisation of the serial stream *)


Section Resync.
Import Bytes Frame FrameSpec ResyncSpec.
Implicit Types (buf g p pat : list byte).















Section TwoFrames.
Variables f1 f2 : list byte.
Hypothesis Hf1 : is_frame f1.
Hypothesis Hf2 : is_frame f2.










End TwoFrames.






End Resync.

(** ** Track lifecycle engine *)

Section DictFacts.
Context {K V : Type} `{EqDecision K}.
Implicit Types (d : Dict.t K V) (k : K) (v : V).

Lemma dict_get_set_eq d k v : Dict.get k (Dict.set k v d) = Some v.
Proof.
  induction d as [|[k' v'] d IH]; simpl.
  - by rewrite decide_True.
  - destruct (decide (k = k')) as [->|Hne]; simpl.
    + by rewrite decide_True.
    + by rewrite decide_False.
Qed.

Lemma dict_get_set_ne d k k' v : k <> k' -> Dict.get k' (Dict.set k v d) = Dict.get k' d.
Proof.
  intros Hne. induction d as [|[k0 v0] d IH]; simpl.
  - rewrite decide_False by done. done.
  - destruct (decide (k = k0)) as [->|Hne0]; simpl.
    + rewrite !decide_False by done. done.
    + destruct (decide (k' = k0)); done.
Qed.

Lemma dict_mem_get d k : Dict.mem k d = true <-> is_Some (Dict.get k d).
Proof. unfold Dict.mem. apply bool_decide_eq_true. Qed.

Lemma dict_mem_false d k : Dict.mem k d = false <-> Dict.get k d = None.
Proof.
  unfold Dict.mem. rewrite bool_decide_eq_false, <- eq_None_not_Some. done.
Qed.

Lemma dict_get_del_eq d k : NoDup (Dict.keys d) -> Dict.get k (Dict.del k d) = None.
Proof.
  induction d as [|[k' v'] d IH]; simpl; [done|].
  intros [Hnin Hnd]%NoDup_cons.
  destruct (decide (k = k')) as [->|Hne]; simpl.
  - clear IH. induction d as [|[k0 v0] d IH]; simpl; [done|].
    simpl in Hnin. apply not_elem_of_cons in Hnin as [? ?].
    rewrite decide_False by done. apply IH; [done|]. by apply NoDup_cons in Hnd as [_ ?].
  - rewrite decide_False by done. by apply IH.
Qed.

Lemma dict_get_del_ne d k k' : k <> k' -> Dict.get k' (Dict.del k d) = Dict.get k' d.
Proof.
  intros Hne. induction d as [|[k0 v0] d IH]; simpl; [done|].
  destruct (decide (k = k0)) as [->|Hne0]; simpl.
  - by rewrite decide_False.
  - destruct (decide (k' = k0)); done.
Qed.

Lemma dict_keys_set_in d k v v0 :
  Dict.get k d = Some v0 -> Dict.keys (Dict.set k v d) = Dict.keys d.
Proof.
  induction d as [|[k' v'] d IH]; simpl; [done|].
  destruct (decide (k = k')) as [->|Hne]; simpl; [done|].
  intros Hg. f_equal. by apply IH.
Qed.

Lemma dict_keys_set_new d k v :
  Dict.get k d = None -> Dict.keys (Dict.set k v d) = Dict.keys d ++ [k].
Proof.
  induction d as [|[k' v'] d IH]; simpl; [done|].
  destruct (decide (k = k')) as [->|Hne]; simpl; [done|].
  intros Hg. f_equal. by apply IH.
Qed.

Lemma dict_get_keys d k : is_Some (Dict.get k d) <-> k ∈ Dict.keys d.
Proof.
  induction d as [|[k' v'] d IH]; simpl.
  - split; [by intros [? ?]|by intros ?%elem_of_nil].
  - destruct (decide (k = k')) as [->|Hne].
    + split; [intros _; apply elem_of_cons; by left|by eexists].
    + rewrite IH, elem_of_cons. split; [by right|]. by intros [?|?].
Qed.

End DictFacts.

Section Kinematics.
Import Py Tracker.

Lemma first_point_iff px py pv pt :
  first_point (px, py, pv, pt) = true <-> px = 0 /\ py = 0 /\ pv = 0%R.
Proof.
  unfold first_point. rewrite !andb_true_iff, !bool_decide_eq_true. split.
  - intros [[-> Hy] ->]. apply eq_IZR in Hy. done.
  - intros (-> & -> & ->). done.
Qed.

Lemma kinematics_sentinel now x y pt :
  kinematics now x y (0, 0, 0%R, pt) = (0%R, 0%R).
Proof.
  unfold kinematics.
  rewrite (proj2 (first_point_iff 0 0 0 pt)); done.
Qed.

Lemma kinematics_moving now x y px py pv pt :
  ~ (px = 0 /\ py = 0 /\ pv = 0%R) ->
  kinematics now x y (px, py, pv, pt)
  = ((hypot (x - px) (y - py) / Rmax (now - pt) (1 / 1000))%R,
     ((hypot (x - px) (y - py) / Rmax (now - pt) (1 / 1000) - pv)
      / Rmax (now - pt) (1 / 1000))%R).
Proof.
  intros Hn. unfold kinematics.
  destruct (first_point _) eqn:E; [|done].
  apply first_point_iff in E. done.
Qed.

Lemma hypot_axis a : hypot a 0 = Rabs (IZR a).
Proof.
  unfold hypot. rewrite Rmult_0_l, Rplus_0_r. 
  replace (IZR a * IZR a)%R with (Rsqr (IZR a)) by reflexivity.
  apply sqrt_Rsqr_abs.
Qed.

End Kinematics.

Section Update.
Import Py Tracker.

Lemma resolve_live clk slot st ser :
  slot2ser st !! slot = Some ser -> Dict.mem ser (active st) = true ->
  resolve clk slot st = (ser, st).
Proof. intros Hs Hm. unfold resolve. rewrite Hs, Hm. done. Qed.

Lemma resolve_unassigned clk slot st :
  slot2ser st !! slot = None ->
  resolve clk slot st
  = (serial_iter st,
     open_verbose clk (serial_iter st)
       {| TrackIndex := TrackIndex st; max_serial := max_serial st;
          slot2ser := <[slot := serial_iter st]> (slot2ser st); active := active st;
          recent := recent st; serial_iter := serial_iter st + 1;
          closed := closed st |}).
Proof. intros Hs. unfold resolve. rewrite Hs. done. Qed.

Lemma resolve_dead clk slot st ser :
  slot2ser st !! slot = Some ser -> Dict.mem ser (active st) = false ->
  resolve clk slot st
  = (serial_iter st,
     open_verbose clk (serial_iter st)
       {| TrackIndex := TrackIndex st; max_serial := max_serial st;
          slot2ser := <[slot := serial_iter st]> (slot2ser st); active := active st;
          recent := recent st; serial_iter := serial_iter st + 1;
          closed := closed st |}).
Proof. intros Hs Hm. unfold resolve. rewrite Hs, Hm. done. Qed.

(** An observation on a slot whose track is live. *)
Lemma update_item_live clk slot x y rest st fastest ser info :
  slot2ser st !! slot = Some ser -> Dict.get ser (active st) = Some info ->
  exists st' info',
    update_item clk (slot, x, y, rest) (st, fastest)
    = inr (st', Rmax fastest (kinematics (mono clk) x y (hist info)).1)
    /\ TrackIndex st' = TrackIndex st /\ max_serial st' = max_serial st
    /\ slot2ser st' = slot2ser st /\ recent st' = recent st
    /\ serial_iter st' = serial_iter st /\ closed st' = closed st
    /\ active st' = Dict.set ser info' (active st)
    /\ first info' = first info /\ fname info' = fname info
    /\ fh info' = fh info ++
         [{| timestamp_iso := Datetime.isoformat_milliseconds (wall clk);
             x_mm := x; y_mm := y; range_mm := int_of_float (hypot x y);
             speed_mm_s := (kinematics (mono clk) x y (hist info)).1;
             accel_mm_s2 := (kinematics (mono clk) x y (hist info)).2;
             raw_hex := match rest with r :: _ => r | [] => ""%string end |}]
    /\ hist info' = (x, y, (kinematics (mono clk) x y (hist info)).1, mono clk)
    /\ last_ts info' = mono clk.
Proof.
  intros Hs Hg. unfold update_item.
  rewrite (resolve_live clk slot st ser Hs) by (apply dict_mem_get; by eexists).
  rewrite Hg. destruct (kinematics _ _ _ _) as [v a]. cbn [fst snd].
  eexists.
  exists {| first := first info; fname := fname info;
            fh := fh info ++
              [{| timestamp_iso := Datetime.isoformat_milliseconds (wall clk);
                  x_mm := x; y_mm := y; range_mm := int_of_float (hypot x y);
                  speed_mm_s := v; accel_mm_s2 := a;
                  raw_hex := match rest with r :: _ => r | [] => ""%string end |}];
            hist := (x, y, v, mono clk); last_ts := mono clk |}.
  split; [reflexivity|]. done.
Qed.

Lemma dict_set_set {K V} `{EqDecision K} (d : Dict.t K V) k v v' :
  Dict.set k v' (Dict.set k v d) = Dict.set k v' d.
Proof.
  induction d as [|[k0 v0] d IH]; simpl.
  - by rewrite decide_True.
  - destruct (decide (k = k0)); simpl.
    + by rewrite decide_True.
    + rewrite decide_False by done. by rewrite IH.
Qed.

(** An observation on a slot without a live track opens a new one. *)
Lemma update_item_new clk slot x y rest st fastest :
  (slot2ser st !! slot = None
   \/ exists ser, slot2ser st !! slot = Some ser /\ Dict.get ser (active st) = None) ->
  exists st' info',
    update_item clk (slot, x, y, rest) (st, fastest)
    = inr (st', Rmax fastest 0)
    /\ TrackIndex st'
       = TrackIndex st ++
           [[Datetime.isoformat_seconds (wall clk); label (serial_iter st);
             Datetime.isoformat_seconds (wall clk); "00:00:00.000"%string;
             fname info']]
    /\ max_serial st' = max_serial st
    /\ slot2ser st' = <[slot := serial_iter st]> (slot2ser st)
    /\ recent st' = recent st
    /\ serial_iter st' = serial_iter st + 1 /\ closed st' = closed st
    /\ active st' = Dict.set (serial_iter st) info' (active st)
    /\ first info' = wall clk
    /\ fname info' = (label (serial_iter st) +:+ "_"
                      +:+ Datetime.strftime_HMS (wall clk) +:+ ".csv")%string
    /\ fh info' = [{| timestamp_iso := Datetime.isoformat_milliseconds (wall clk);
                      x_mm := x; y_mm := y; range_mm := int_of_float (hypot x y);
                      speed_mm_s := 0; accel_mm_s2 := 0;
                      raw_hex := match rest with r :: _ => r | [] => ""%string end |}]
    /\ hist info' = (x, y, 0%R, mono clk)
    /\ last_ts info' = mono clk.
Proof.
  intros Hs. unfold update_item.
  assert (resolve clk slot st
          = (serial_iter st,
             open_verbose clk (serial_iter st)
               {| TrackIndex := TrackIndex st; max_serial := max_serial st;
                  slot2ser := <[slot := serial_iter st]> (slot2ser st);
                  active := active st; recent := recent st;
                  serial_iter := serial_iter st + 1; closed := closed st |})) as ->.
  { destruct Hs as [Hs|[ser [Hs Hg]]].
    - by apply resolve_unassigned.
    - apply (resolve_dead _ _ _ ser); [done|]. by apply dict_mem_false. }
  unfold open_verbose. cbv beta iota zeta. cbn [active].
  rewrite dict_get_set_eq. cbn [hist]. rewrite kinematics_sentinel.
  eexists.
  exists {| first := wall clk;
            fname := (label (serial_iter st) +:+ "_"
                      +:+ Datetime.strftime_HMS (wall clk) +:+ ".csv")%string;
            fh := [{| timestamp_iso := Datetime.isoformat_milliseconds (wall clk);
                      x_mm := x; y_mm := y; range_mm := int_of_float (hypot x y);
                      speed_mm_s := 0; accel_mm_s2 := 0;
                      raw_hex := match rest with r :: _ => r | [] => ""%string end |}];
            hist := (x, y, 0%R, mono clk); last_ts := mono clk |}.
  split; [reflexivity|].
  cbn [TrackIndex max_serial slot2ser active recent serial_iter closed
       first fname fh hist last_ts app fst snd].
  rewrite dict_set_set. done.
Qed.

(** The sweep leaves a state as it is when no track is stale. *)
Lemma sweep_fresh clk sers st :
  (forall ser, ser ∈ sers ->
     exists info, Dict.get ser (active st) = Some info
                  /\ ~ (mono clk - last_ts info > END_TIMEOUT)%R) ->
  sweep clk sers st = inr st.
Proof.
  induction sers as [|ser sers IH]; intros Hall; simpl; [done|].
  destruct (Hall ser) as [info [Hg Hf]]; [apply elem_of_cons; by left|].
  rewrite Hg, bool_decide_eq_false_2 by done.
  apply IH. intros s Hs. apply Hall, elem_of_cons. by right.
Qed.

End Update.


Section Engine.
Import Py Tracker TrackerSpec.

Lemma init_no_file : init None = inr fresh_tracker.
Proof. reflexivity. Qed.

Lemma update_single clk it st st1 f1 :
  update_item clk it (st, 0%R) = inr (st1, f1) ->
  sweep clk (Dict.keys (active st1)) st1 = inr st1 ->
  update clk [it] st = inr (st1, f1).
Proof.
  intros Hi Hs. unfold update. cbn [update_items]. rewrite Hi.
  cbn [bind ret]. rewrite Hs. done.
Qed.

Lemma Rmax_0_0 : Rmax 0 0 = 0%R.
Proof. apply Rmax_left. lra. Qed.

(** A batch of one observation on a live slot, no other track being stale:
    the track is updated in place, whatever its own silence was. *)
Lemma update_one_live clk slot x y rest st ser info :
  slot2ser st !! slot = Some ser -> Dict.get ser (active st) = Some info ->
  (forall ser' info', ser' <> ser -> Dict.get ser' (active st) = Some info' ->
     ~ (mono clk - last_ts info' > END_TIMEOUT)%R) ->
  exists st' info',
    update clk [(slot, x, y, rest)] st
    = inr (st', Rmax 0 (kinematics (mono clk) x y (hist info)).1)
    /\ slot2ser st' = slot2ser st /\ serial_iter st' = serial_iter st
    /\ recent st' = recent st /\ TrackIndex st' = TrackIndex st
    /\ closed st' = closed st
    /\ active st' = Dict.set ser info' (active st)
    /\ first info' = first info
    /\ fh info' = fh info ++
         [{| timestamp_iso := Datetime.isoformat_milliseconds (wall clk);
             x_mm := x; y_mm := y; range_mm := int_of_float (hypot x y);
             speed_mm_s := (kinematics (mono clk) x y (hist info)).1;
             accel_mm_s2 := (kinematics (mono clk) x y (hist info)).2;
             raw_hex := match rest with r :: _ => r | [] => ""%string end |}]
    /\ hist info' = (x, y, (kinematics (mono clk) x y (hist info)).1, mono clk)
    /\ last_ts info' = mono clk.
Proof.
  intros Hs Hg Hfresh.
  destruct (update_item_live clk slot x y rest st 0%R ser info Hs Hg)
    as (st' & info' & Hu & Hti & Hms & Hsl & Hre & Hsi & Hcl & Hac & Hfi & Hfn
        & Hfh & Hhi & Hla).
  exists st', info'. split; [|done].
  apply update_single; [done|].
  apply sweep_fresh. intros s Hin. rewrite Hac in *.
  destruct (decide (s = ser)) as [->|Hne].
  - rewrite dict_get_set_eq. eexists. split; [done|]. rewrite Hla.
    unfold END_TIMEOUT. lra.
  - apply dict_get_keys in Hin as [i Hi].
    rewrite dict_get_set_ne in Hi by done.
    rewrite dict_get_set_ne by done. eauto.
Qed.

(** A batch of one observation on a slot without a live track, no track
    being stale: a track is opened under the next serial. *)
Lemma update_one_new clk slot x y rest st :
  (slot2ser st !! slot = None
   \/ exists ser, slot2ser st !! slot = Some ser /\ Dict.get ser (active st) = None) ->
  (forall ser' info', Dict.get ser' (active st) = Some info' ->
     ~ (mono clk - last_ts info' > END_TIMEOUT)%R) ->
  exists st' info',
    update clk [(slot, x, y, rest)] st = inr (st', 0%R)
    /\ slot2ser st' = <[slot := serial_iter st]> (slot2ser st)
    /\ serial_iter st' = serial_iter st + 1
    /\ recent st' = recent st /\ closed st' = closed st
    /\ active st' = Dict.set (serial_iter st) info' (active st)
    /\ first info' = wall clk
    /\ speeds (fh info') = [0%R] /\ accels (fh info') = [0%R]
    /\ hist info' = (x, y, 0%R, mono clk)
    /\ last_ts info' = mono clk
    /\ TrackIndex st'
       = TrackIndex st ++
           [[Datetime.isoformat_seconds (wall clk); label (serial_iter st);
             Datetime.isoformat_seconds (wall clk); "00:00:00.000"%string;
             fname info']].
Proof.
  intros Hs Hfresh.
  destruct (update_item_new clk slot x y rest st 0%R Hs)
    as (st' & info' & Hu & Hti & Hms & Hsl & Hre & Hsi & Hcl & Hac & Hfi & Hfn
        & Hfh & Hhi & Hla).
  rewrite Rmax_0_0 in Hu.
  exists st', info'. split; [|unfold speeds, accels; rewrite Hfh; done].
  apply update_single; [done|].
  apply sweep_fresh. intros s Hin. rewrite Hac in *.
  destruct (decide (s = serial_iter st)) as [->|Hne].
  - rewrite dict_get_set_eq. eexists. split; [done|]. rewrite Hla.
    unfold END_TIMEOUT. lra.
  - apply dict_get_keys in Hin as [i Hi].
    rewrite dict_get_set_ne in Hi by done.
    rewrite dict_get_set_ne by done. eauto.
Qed.

End Engine.

Section Claims.
Import Py Tracker TrackerSpec.

Lemma fresh_tracker_no_track ser : Dict.get ser (active fresh_tracker) = None.
Proof. reflexivity. Qed.

(** The first batch after start-up, one observation on [slot]. *)
Lemma first_update s slot x y :
  exists st1 info1,
    update (at_second s) (one slot x y) fresh_tracker = inr (st1, 0%R)
    /\ slot2ser st1 !! slot = Some 1 /\ serial_iter st1 = 2
    /\ recent st1 = [] /\ active st1 = [(1, info1)]
    /\ speeds (fh info1) = [0%R] /\ accels (fh info1) = [0%R]
    /\ hist info1 = (x, y, 0%R, IZR s) /\ last_ts info1 = IZR s.
Proof.
  destruct (update_one_new (at_second s) slot x y [] fresh_tracker)
    as (st1 & info1 & Hu & Hsl & Hsi & Hre & Hcl & Hac & Hfi & Hsp & Hacc & Hhi & Hla
        & Hti).
  - left. apply lookup_empty.
  - intros ser info Hg. rewrite fresh_tracker_no_track in Hg. done.
  - exists st1, info1. split; [done|]. rewrite Hsl, Hsi, Hre, Hac.
    repeat split; try done. apply lookup_insert_eq.
Qed.

(** C1, where the code departs from it.  A track's first observation is
    reported with speed 0 and acceleration 0; but when that observation is
    at (0, 0), the observation at (1000, 0) one second later is reported
    with speed 0 as well, not 1000 mm/s. *)
Theorem origin_then_1000_reports_zero :
  exists st1 st2 info,
    init None = inr fresh_tracker
    /\ update (at_second 0) (one 1 0 0) fresh_tracker = inr (st1, 0%R)
    /\ update (at_second 1) (one 1 1000 0) st1 = inr (st2, 0%R)
    /\ Dict.get 1 (active st2) = Some info
    /\ speeds (fh info) = [0%R; 0%R] /\ accels (fh info) = [0%R; 0%R].
Proof.
  destruct (first_update 0 1 0 0)
    as (st1 & info1 & Hu1 & Hsl1 & Hsi1 & Hre1 & Hac1 & Hsp1 & Hacc1 & Hhi1 & Hla1).
  assert (Dict.get 1 (active st1) = Some info1) as Hg1 by (rewrite Hac1; done).
  destruct (update_one_live (at_second 1) 1 1000 0 [] st1 1 info1 Hsl1 Hg1)
    as (st2 & info2 & Hu2 & _ & _ & _ & _ & _ & Hac2 & _ & Hfh2 & _).
  { intros ser' info' Hne Hg. rewrite Hac1 in Hg. simpl in Hg.
    rewrite decide_False in Hg by done. done. }
  rewrite Hhi1, kinematics_sentinel in Hu2, Hfh2. cbn [fst snd] in Hu2, Hfh2.
  rewrite Rmax_0_0 in Hu2.
  exists st1, st2, info2. split; [reflexivity|]. split; [done|]. split; [done|].
  split; [rewrite Hac2; apply dict_get_set_eq|].
  unfold speeds, accels in *. rewrite Hfh2, !fmap_app, Hsp1, Hacc1. done.
Qed.

(** The same two observations shifted by one millimetre: the second one
    is reported at 1000 mm/s. *)
Lemma off_origin_then_1000_reports_1000 :
  exists st1 st2 info,
    update (at_second 0) (one 1 1 0) fresh_tracker = inr (st1, 0%R)
    /\ update (at_second 1) (one 1 1001 0) st1 = inr (st2, 1000%R)
    /\ Dict.get 1 (active st2) = Some info
    /\ speeds (fh info) = [0%R; 1000%R].
Proof.
  destruct (first_update 0 1 1 0)
    as (st1 & info1 & Hu1 & Hsl1 & Hsi1 & Hre1 & Hac1 & Hsp1 & Hacc1 & Hhi1 & Hla1).
  assert (Dict.get 1 (active st1) = Some info1) as Hg1 by (rewrite Hac1; done).
  destruct (update_one_live (at_second 1) 1 1001 0 [] st1 1 info1 Hsl1 Hg1)
    as (st2 & info2 & Hu2 & _ & _ & _ & _ & _ & Hac2 & _ & Hfh2 & _).
  { intros ser' info' Hne Hg. rewrite Hac1 in Hg. simpl in Hg.
    rewrite decide_False in Hg by done. done. }
  assert ((kinematics (mono (at_second 1)) 1001 0 (hist info1)).1 = 1000%R) as Hv.
  { rewrite Hhi1, kinematics_moving by lia. cbn [fst mono at_second].
    replace (1001 - 1) with 1000 by lia. replace (0 - 0) with 0 by lia.
    rewrite hypot_axis, Rabs_right by lra.
    rewrite Rmax_left by lra. lra. }
  rewrite Hv in Hu2, Hfh2. rewrite Rmax_right in Hu2 by lra.
  exists st1, st2, info2. split; [done|]. split; [done|].
  split; [rewrite Hac2; apply dict_get_set_eq|].
  unfold speeds in *. rewrite Hfh2, fmap_app, Hsp1. done.
Qed.

(** C3, where the code departs from it.  A batch that carries an
    observation for a slot whose track has been silent for more than
    END_TIMEOUT, no other track being stale and no batch having arrived
    in between, keeps the slot's serial: the track is refreshed before
    the expiry loop looks at it, no serial is drawn and nothing is
    archived. *)
Theorem stale_track_keeps_serial clk slot x y rest st ser info :
  slot2ser st !! slot = Some ser ->
  Dict.get ser (active st) = Some info ->
  (mono clk - last_ts info > END_TIMEOUT)%R ->
  (forall ser' info', ser' <> ser -> Dict.get ser' (active st) = Some info' ->
     ~ (mono clk - last_ts info' > END_TIMEOUT)%R) ->
  exists st' fastest,
    update clk [(slot, x, y, rest)] st = inr (st', fastest)
    /\ slot2ser st' !! slot = Some ser
    /\ is_Some (Dict.get ser (active st'))
    /\ serial_iter st' = serial_iter st
    /\ recent st' = recent st.
Proof.
  intros Hs Hg _ Hothers.
  destruct (update_one_live clk slot x y rest st ser info Hs Hg Hothers)
    as (st' & info' & Hu & Hsl & Hsi & Hre & _ & _ & Hac & _).
  exists st'. eexists. split; [done|]. rewrite Hsl, Hac, dict_get_set_eq.
  repeat split; done || by eexists.
Qed.

(** The theorem at the state reached by one observation on slot 1 at
    second 0, for the next observation on slot 1 at second 10. *)
Lemma stale_track_keeps_serial_witness :
  exists st1 st2 fastest,
    update (at_second 0) (one 1 100 0) fresh_tracker = inr (st1, 0%R)
    /\ slot2ser st1 !! 1 = Some 1
    /\ update (at_second 10) (one 1 100 0) st1 = inr (st2, fastest)
    /\ slot2ser st2 !! 1 = Some 1
    /\ serial_iter st2 = serial_iter st1
    /\ recent st2 = [].
Proof.
  destruct (first_update 0 1 100 0)
    as (st1 & info1 & Hu1 & Hsl1 & Hsi1 & Hre1 & Hac1 & Hsp1 & Hacc1 & Hhi1 & Hla1).
  assert (Dict.get 1 (active st1) = Some info1) as Hg1 by (rewrite Hac1; done).
  destruct (stale_track_keeps_serial (at_second 10) 1 100 0 [] st1 1 info1 Hsl1 Hg1)
    as (st2 & f & Hu2 & Hsl2 & _ & Hsi2 & Hre2).
  - rewrite Hla1. unfold END_TIMEOUT. cbn [mono at_second]. lra.
  - intros ser' info' Hne Hg. rewrite Hac1 in Hg. simpl in Hg.
    rewrite decide_False in Hg by done. done.
  - exists st1, st2, f. rewrite Hre2, Hre1. done.
Defined.

(** C10.  [update] takes an observation for a track's first sample exactly
    when the track's stored previous sample is x = 0, y = 0, speed = 0,
    which is what a new track is seeded with; so an observation that
    follows a recorded sample at the origin with zero speed is written
    with speed 0 and acceleration 0, whatever its position and time. *)
Theorem first_point_is_origin_sentinel :
  (forall px py pv pt,
     first_point (px, py, pv, pt) = true <-> px = 0 /\ py = 0 /\ pv = 0%R)
  /\ (forall clk ser st,
        exists info, Dict.get ser (active (open_verbose clk ser st)) = Some info
                     /\ hist info = (0, 0, 0%R, mono clk))
  /\ (forall clk slot x y rest st fastest ser info pt,
        slot2ser st !! slot = Some ser ->
        Dict.get ser (active st) = Some info ->
        hist info = (0, 0, 0%R, pt) ->
        exists st' info',
          update_item clk (slot, x, y, rest) (st, fastest)
          = inr (st', Rmax fastest 0)
          /\ Dict.get ser (active st') = Some info'
          /\ speeds (fh info') = speeds (fh info) ++ [0%R]
          /\ accels (fh info') = accels (fh info) ++ [0%R]).
Proof.
  split; [apply first_point_iff|]. split.
  - intros clk ser st. unfold open_verbose. cbn [active].
    rewrite dict_get_set_eq. eexists. split; [done|]. done.
  - intros clk slot x y rest st fastest ser info pt Hs Hg Hh.
    destruct (update_item_live clk slot x y rest st fastest ser info Hs Hg)
      as (st' & info' & Hu & _ & _ & _ & _ & _ & _ & Hac & _ & _ & Hfh & _).
    rewrite Hh, kinematics_sentinel in Hu, Hfh. cbn [fst snd] in Hu, Hfh.
    exists st', info'. split; [done|].
    split; [rewrite Hac; apply dict_get_set_eq|].
    unfold speeds, accels. rewrite Hfh, !fmap_app. done.
Qed.

(** The third part of the theorem at the track opened by an observation
    at the origin, for an observation 1000 mm away one second later. *)
Lemma first_point_is_origin_sentinel_witness :
  exists st1 info1 st2 info2,
    update (at_second 0) (one 1 0 0) fresh_tracker = inr (st1, 0%R)
    /\ Dict.get 1 (active st1) = Some info1
    /\ update_item (at_second 1) (1, 1000, 0, []) (st1, 0%R) = inr (st2, Rmax 0 0)
    /\ Dict.get 1 (active st2) = Some info2
    /\ speeds (fh info2) = [0%R; 0%R].
Proof.
  destruct (first_update 0 1 0 0)
    as (st1 & info1 & Hu1 & Hsl1 & Hsi1 & Hre1 & Hac1 & Hsp1 & Hacc1 & Hhi1 & Hla1).
  assert (Dict.get 1 (active st1) = Some info1) as Hg1 by (rewrite Hac1; done).
  destruct first_point_is_origin_sentinel as (_ & _ & H).
  destruct (H (at_second 1) 1 1000 0 [] st1 0%R 1 info1 (IZR 0) Hsl1 Hg1 Hhi1)
    as (st2 & info2 & Hu2 & Hg2 & Hsp2 & _).
  exists st1, info1, st2, info2. rewrite Hsp2, Hsp1. done.
Defined.

End Claims.

(** ** Index file and expiry *)


Section Index.
Import Py Tracker IndexSpec.

Lemma five_cells_inv (r : list string) :
  length r = 5%nat -> exists a b c d e, r = [a; b; c; d; e].
Proof.
  destruct r as [|a [|b [|c [|d [|e [|? ?]]]]]]; simpl; try lia. eauto 6.
Qed.

Lemma reader_five_cells rows :
  five_cells rows ->
  Csv.DictReader (index_header :: rows) = Csv.read_row index_header <$> rows.
Proof.
  intros Hf. unfold Csv.DictReader. f_equal.
  induction Hf as [|r rows Hr _ IH]; [done|].
  rewrite filter_cons_True; [by rewrite IH|].
  intros ->. done.
Qed.

Lemma finalize_skip ser fi li du r rows :
  length r = 5%nat -> ~ names_track ser fi r ->
  finalize_row ser fi li du (Csv.read_row index_header r :: rows)
  = (let! rows' := finalize_row ser fi li du rows in
     ret (Csv.read_row index_header r :: rows')).
Proof.
  intros Hl Hn. destruct (five_cells_inv r Hl) as (a & b & c & d & e & ->).
  unfold names_track in Hn. simpl in Hn.
  cbn [finalize_row]. change (Csv.getitem "serial" _) with (@ret (option string) (Some b)).
  cbn [bind ret].
  destruct (decide (b = ser)) as [->|Hb].
  - rewrite bool_decide_eq_true_2 by done.
    change (Csv.getitem "first_seen_iso" _) with (@ret (option string) (Some a)).
    cbn [bind ret].
    rewrite bool_decide_eq_false_2; [done|]. intros [= ->]. by apply Hn.
  - rewrite bool_decide_eq_false_2; [done|]. intros [= ->]. done.
Qed.

Lemma finalize_hit ser fi li du l0 d0 file rows :
  finalize_row ser fi li du (Csv.read_row index_header [fi; ser; l0; d0; file] :: rows)
  = ret (Csv.read_row index_header [fi; ser; li; du; file] :: rows).
Proof.
  cbn [finalize_row]. change (Csv.getitem "serial" _) with (@ret (option string) (Some ser)).
  cbn [bind ret]. rewrite bool_decide_eq_true_2 by done.
  change (Csv.getitem "first_seen_iso" _) with (@ret (option string) (Some fi)).
  cbn [bind ret]. rewrite bool_decide_eq_true_2 by done. reflexivity.
Qed.

Lemma finalize_rows ser fi li du l0 d0 file pre post :
  five_cells pre -> Forall (fun r => ~ names_track ser fi r) pre ->
  finalize_row ser fi li du
    (Csv.read_row index_header <$> (pre ++ [fi; ser; l0; d0; file] :: post))
  = ret (Csv.read_row index_header <$> (pre ++ [fi; ser; li; du; file] :: post)).
Proof.
  intros Hf Hn. induction pre as [|r pre IH].
  - rewrite !app_nil_l, !fmap_cons. apply finalize_hit.
  - apply Forall_cons in Hf as [Hr Hf]. apply Forall_cons in Hn as [Hnr Hn].
    rewrite <- !app_comm_cons, !fmap_cons.
    rewrite finalize_skip by done. rewrite IH by done. done.
Qed.

Lemma writerows_five_cells rows :
  five_cells rows ->
  Csv.writerows (Some <$> index_header) (Csv.read_row index_header <$> rows)
  = ret rows.
Proof.
  induction 1 as [|r rows Hr _ IH]; [done|].
  destruct (five_cells_inv r Hr) as (a & b & c & d & e & ->).
  rewrite fmap_cons. cbn [Csv.writerows].
  change (Csv.dict_to_list _ _) with (@ret (list string) [a; b; c; d; e]).
  cbn [bind ret]. rewrite IH. done.
Qed.

(** *** Texts without a full stop *)

Lemma before_dot_uint d t :
  before_dot (NilEmpty.string_of_uint d +:+ t)
  = NilEmpty.string_of_uint d +:+ before_dot t.
Proof. induction d; simpl; rewrite ?IHd; done. Qed.

Lemma before_dot_str_of_int n t :
  before_dot (str_of_int n +:+ t) = str_of_int n +:+ before_dot t.
Proof.
  unfold str_of_int, NilZero.string_of_int, NilZero.string_of_uint.
  destruct (Z.to_int n) as [d|d]; destruct d; simpl;
    rewrite ?before_dot_uint; done.
Qed.

Lemma before_dot_pad2 n t :
  before_dot (pad2 n +:+ t) = pad2 n +:+ before_dot t.
Proof.
  unfold pad2. destruct (_ && _); [|apply before_dot_str_of_int].
  change (String "0" (before_dot (str_of_int n +:+ t))
          = String "0" (str_of_int n +:+ before_dot t)).
  f_equal. apply before_dot_str_of_int.
Qed.

Lemma string_app_assoc (a b c : string) : (a +:+ b) +:+ c = a +:+ (b +:+ c).
Proof.
  induction a as [|ch a IH]; [done|].
  change (String ch ((a +:+ b) +:+ c) = String ch (a +:+ (b +:+ c))).
  f_equal. apply IH.
Qed.

Lemma string_app_nil_r (a : string) : a +:+ "" = a.
Proof.
  induction a as [|ch a IH]; [done|].
  change (String ch (a +:+ "") = String ch a). f_equal. apply IH.
Qed.

Lemma before_dot_colon t : before_dot (":" +:+ t) = ":" +:+ before_dot t.
Proof. reflexivity. Qed.

Lemma before_dot_day t : before_dot (" day" +:+ t) = " day" +:+ before_dot t.
Proof. reflexivity. Qed.

Lemma before_dot_s t : before_dot ("s" +:+ t) = "s" +:+ before_dot t.
Proof. reflexivity. Qed.

Lemma before_dot_comma t : before_dot (", " +:+ t) = ", " +:+ before_dot t.
Proof. reflexivity. Qed.

(** The part of [str(td)] before the fraction. *)
Lemma timedelta_str_split td :
  exists s, (forall t, before_dot (s +:+ t) = s +:+ before_dot t)
    /\ Datetime.timedelta_str td
       = (if td mod 1000000 =? 0 then s else s +:+ "." +:+ pad6 (td mod 1000000))
    /\ Datetime.timedelta_str (1000000 * (td / 1000000)) = s.
Proof.
  set (days := td / 86400000000).
  set (secs := td mod 86400000000 / 1000000).
  set (hms := str_of_int (secs / 3600) +:+ ":" +:+ pad2 (secs mod 3600 / 60)
              +:+ ":" +:+ pad2 (secs mod 60)).
  assert (forall t, before_dot (hms +:+ t) = hms +:+ before_dot t) as Hhms.
  { intros t. unfold hms.
    rewrite !string_app_assoc, before_dot_str_of_int, before_dot_colon,
      before_dot_pad2, before_dot_colon, before_dot_pad2. done. }
  exists (if days =? 0 then hms
          else str_of_int days +:+ " day" +:+ (if Z.abs days =? 1 then "" else "s")
               +:+ ", " +:+ hms).
  split; [|split].
  - intros t. destruct (days =? 0); [apply Hhms|].
    rewrite !string_app_assoc, before_dot_str_of_int, before_dot_day.
    destruct (Z.abs days =? 1).
    + change ("" +:+ ?x) with x. rewrite before_dot_comma, Hhms. done.
    + rewrite before_dot_s, before_dot_comma, Hhms. done.
  - reflexivity.
  - unfold Datetime.timedelta_str.
    replace (1000000 * (td / 1000000) / 86400000000) with days.
    2:{ unfold days. change 86400000000 with (1000000 * 86400).
        rewrite Z.div_mul_cancel_l by lia. by rewrite Z.div_div by lia. }
    replace (1000000 * (td / 1000000) mod 86400000000 / 1000000) with secs.
    2:{ unfold secs. change 86400000000 with (1000000 * 86400).
        rewrite Zmult_mod_distr_l.
        rewrite (Z.mul_comm 1000000 (_ mod _)), Z.div_mul by lia.
        rewrite Z.rem_mul_r by lia.
        symmetry. apply (Z.div_unique_pos _ _ _ (td mod 1000000));
          [apply Z.mod_pos_bound; lia|lia]. }
    replace (1000000 * (td / 1000000) mod 1000000) with 0.
    2:{ rewrite Z.mul_comm, Z.mod_mul by lia. done. }
    reflexivity.
Qed.

(** The duration cell shows the whole seconds of the lifetime. *)
Lemma duration_cell_whole_seconds td :
  duration_cell td = Datetime.timedelta_str (1000000 * (td / 1000000)).
Proof.
  destruct (timedelta_str_split td) as (s & Hs & Hstr & Hwhole).
  unfold duration_cell. rewrite Hstr, Hwhole.
  destruct (td mod 1000000 =? 0).
  - rewrite <- (string_app_nil_r s) at 1. rewrite Hs. simpl. apply string_app_nil_r.
  - rewrite Hs. simpl. apply string_app_nil_r.
Qed.

End Index.

Section Expiry.
Import Py Tracker TrackerSpec IndexSpec.

Lemma headers_five_cells rows :
  five_cells rows ->
  match Csv.read_row index_header <$> rows with
  | r :: _ => Csv.keys r
  | [] => Some <$> index_header
  end = Some <$> index_header.
Proof.
  intros Hf. destruct Hf as [|r rows Hr _]; [done|].
  destruct (five_cells_inv r Hr) as (a & b & c & d & e & ->). reflexivity.
Qed.

Lemma recent_push (e : Recent) l :
  (length l <= 3)%nat ->
  (if (3 <? length (e :: l))%nat then removelast (e :: l) else e :: l)
  = take 3 (e :: l).
Proof.
  destruct l as [|a [|b [|c [|d l]]]]; simpl; try done. lia.
Qed.

(** [_expire] on an index file as the tracker writes it. *)
Lemma expire_index clk ser st info l0 d0 file pre post :
  Dict.get ser (active st) = Some info ->
  TrackIndex st
  = index_header
    :: pre ++ [Datetime.isoformat_seconds (first info); label ser; l0; d0; file]
    :: post ->
  five_cells pre -> five_cells post ->
  Forall (fun r => ~ names_track (label ser)
                       (Datetime.isoformat_seconds (first info)) r) pre ->
  expire clk ser st
  = inr {| TrackIndex :=
             index_header
             :: pre ++ [Datetime.isoformat_seconds (first info); label ser;
                        Datetime.isoformat_seconds (wall clk);
                        duration_cell (wall clk - first info); file]
             :: post;
           max_serial := max_serial st;
           slot2ser := filter (fun kv => kv.2 <> ser) (slot2ser st);
           active := Dict.del ser (active st);
           recent :=
             (if (3 <? length (expired ser info (wall clk) :: recent st))%nat
              then removelast (expired ser info (wall clk) :: recent st)
              else expired ser info (wall clk) :: recent st);
           serial_iter := serial_iter st;
           closed := closed st ++ [(fname info, fh info)] |}.
Proof.
  intros Hg Hti Hpre Hpost Hn. unfold expire. rewrite Hg, Hti.
  assert (five_cells (pre ++ [Datetime.isoformat_seconds (first info); label ser;
                              l0; d0; file] :: post)) as Hall.
  { apply Forall_app. split; [done|]. apply Forall_cons. done. }
  rewrite reader_five_cells by done.
  rewrite (finalize_rows _ _ _ _ l0 d0 file pre post) by done.
  cbn [bind ret].
  rewrite headers_five_cells
    by (apply Forall_app; split; [done|]; apply Forall_cons; done).
  unfold Csv.write.
  rewrite writerows_five_cells.
  2:{ apply Forall_app. split; [done|]. apply Forall_cons. done. }
  reflexivity.
Qed.

(** The sweep over a table whose only track is stale. *)
Lemma sweep_one_stale clk ser st info :
  Dict.get ser (active st) = Some info ->
  (mono clk - last_ts info > END_TIMEOUT)%R ->
  sweep clk [ser] st = expire clk ser st.
Proof.
  intros Hg Hs. cbn [sweep]. rewrite Hg, bool_decide_eq_true_2 by done.
  destruct (expire clk ser st); done.
Qed.

Lemma update_empty clk st :
  update clk [] st
  = (let! st' := sweep clk (Dict.keys (active st)) st in ret (st', 0%R)).
Proof. reflexivity. Qed.

Lemma whole_seconds_gap a b :
  a / 1000000 - b / 1000000 - 1 <= (a - b) / 1000000 <= a / 1000000 - b / 1000000.
Proof.
  pose proof (Z.div_mod a 1000000 ltac:(lia)).
  pose proof (Z.div_mod b 1000000 ltac:(lia)).
  pose proof (Z.div_mod (a - b) 1000000 ltac:(lia)).
  pose proof (Z.mod_pos_bound a 1000000 ltac:(lia)).
  pose proof (Z.mod_pos_bound b 1000000 ltac:(lia)).
  pose proof (Z.mod_pos_bound (a - b) 1000000 ltac:(lia)).
  lia.
Qed.

(** C8, as the code has it.  When a track expires and the index file has
    five cells in every line, the first line that carries the track's
    serial and creation second is rewritten in place: its last-seen cell
    becomes the expiry instant cut to the second and its duration cell
    the text of the whole seconds elapsed between creation and expiry,
    the instants taken at full precision.  The number of lines is
    unchanged and every other line is as before.  The whole seconds
    elapsed are the difference of the two written seconds or one less. *)
Theorem expire_finalizes_index_row clk ser st info l0 d0 file pre post :
  Dict.get ser (active st) = Some info ->
  TrackIndex st
  = index_header
    :: pre ++ [Datetime.isoformat_seconds (first info); label ser; l0; d0; file]
    :: post ->
  five_cells pre -> five_cells post ->
  Forall (fun r => ~ names_track (label ser)
                       (Datetime.isoformat_seconds (first info)) r) pre ->
  exists st',
    expire clk ser st = inr st'
    /\ TrackIndex st'
       = index_header
         :: pre ++ [Datetime.isoformat_seconds (first info); label ser;
                    Datetime.isoformat_seconds (wall clk);
                    Datetime.timedelta_str
                      (1000000 * ((wall clk - first info) / 1000000));
                    file]
         :: post
    /\ length (TrackIndex st') = length (TrackIndex st)
    /\ Datetime.seconds (wall clk) - Datetime.seconds (first info) - 1
       <= (wall clk - first info) / 1000000
       <= Datetime.seconds (wall clk) - Datetime.seconds (first info).
Proof.
  intros Hg Hti Hpre Hpost Hn.
  eexists. split; [by apply (expire_index clk ser st info l0 d0 file pre post)|].
  cbn [TrackIndex]. rewrite duration_cell_whole_seconds.
  split; [done|]. split; [|apply whole_seconds_gap].
  rewrite Hti. cbn [length]. rewrite !length_app. done.
Qed.

(** A track opened at [born] on slot 1 of a tracker started without an
    index file. *)
Lemma track_born :
  exists st1 info1,
    update born (one 1 100 0) fresh_tracker = inr (st1, 0%R)
    /\ active st1 = [(1, info1)] /\ first info1 = 900000 /\ last_ts info1 = 0%R
    /\ recent st1 = []
    /\ TrackIndex st1
       = [index_header;
          ["1970-01-01T00:00:00"; "T1"; "1970-01-01T00:00:00"; "00:00:00.000";
           fname info1]%string].
Proof.
  destruct (update_one_new born 1 100 0 [] fresh_tracker)
    as (st1 & info1 & Hu & Hsl & Hsi & Hre & Hcl & Hac & Hfi & Hsp & Hacc & Hhi & Hla
        & Hti).
  - left. apply lookup_empty.
  - intros ser info Hg. done.
  - exists st1, info1. rewrite Hac, Hti, Hre. done.
Qed.

(** The theorem at the track opened at [born], expired at [swept]. *)
Lemma expire_finalizes_index_row_witness :
  exists st1 st2 file,
    expire swept 1 st1 = inr st2
    /\ TrackIndex st1
       = [index_header;
          ["1970-01-01T00:00:00"; "T1"; "1970-01-01T00:00:00"; "00:00:00.000";
           file]%string]
    /\ TrackIndex st2
       = [index_header;
          ["1970-01-01T00:00:00"; "T1"; "1970-01-01T00:00:05"; "0:00:04";
           file]%string].
Proof.
  destruct track_born as (st1 & info1 & Hu & Hac & Hfi & Hla & Hre & Hti).
  destruct (expire_finalizes_index_row swept 1 st1 info1
              "1970-01-01T00:00:00" "00:00:00.000" (fname info1) [] [])
    as (st2 & He & Hti2 & _).
  - rewrite Hac. done.
  - rewrite Hti, Hfi. done.
  - constructor.
  - constructor.
  - constructor.
  - exists st1, st2, (fname info1). rewrite Hti2, Hfi. done.
Defined.

(** C8 as stated fails: for the track created at [born] and expired by
    the empty batch at [swept], the written seconds are 5 s apart and the
    duration cell says 4 s. *)
Lemma duration_one_second_short :
  exists st1 st2 file,
    update born (one 1 100 0) fresh_tracker = inr (st1, 0%R)
    /\ update swept [] st1 = inr (st2, 0%R)
    /\ TrackIndex st2
       = [index_header;
          ["1970-01-01T00:00:00"; "T1"; "1970-01-01T00:00:05"; "0:00:04";
           file]%string]
    /\ Datetime.isoformat_seconds (wall born) = "1970-01-01T00:00:00"%string
    /\ Datetime.isoformat_seconds (wall swept) = "1970-01-01T00:00:05"%string
    /\ Datetime.timedelta_str
         (1000000 * (Datetime.seconds (wall swept) - Datetime.seconds (wall born)))
       = "0:00:05"%string
    /\ "0:00:04"%string <> "0:00:05"%string.
Proof.
  destruct track_born as (st1 & info1 & Hu & Hac & Hfi & Hla & Hre & Hti).
  assert (Dict.get 1 (active st1) = Some info1) as Hg by (rewrite Hac; done).
  eexists st1, _, (fname info1). split; [done|]. split.
  - rewrite update_empty, Hac. cbn [Dict.keys map fst].
    rewrite (sweep_one_stale swept 1 st1 info1 Hg).
    2:{ rewrite Hla. unfold END_TIMEOUT. cbn [mono swept]. lra. }
    rewrite (expire_index swept 1 st1 info1
               "1970-01-01T00:00:00" "00:00:00.000" (fname info1) [] []).
    + cbn [bind ret]. reflexivity.
    + done.
    + rewrite Hti, Hfi. done.
    + constructor.
    + constructor.
    + constructor.
  - cbn [TrackIndex]. rewrite Hfi. repeat split; done.
Qed.

End Expiry.

(** ** Start-up scan of the index file *)


Section Scan.
Import Py Tracker TrackerSpec ScanSpec.






End Scan.

(** ** Stream watchdog *)


Section Watchdog.
Import Py Tracker TrackerSpec RadarGUI GuiSpec.

Lemma end_targets_fold now items tr :
  active tr = items ->
  let tr' := fold_left (end_target now) items tr in
  active tr' = []
  /\ recent tr' = recent tr ++ (archived now <$> items)
  /\ TrackIndex tr' = TrackIndex tr /\ max_serial tr' = max_serial tr
  /\ slot2ser tr' = slot2ser tr /\ serial_iter tr' = serial_iter tr
  /\ closed tr' = closed tr.
Proof.
  revert tr. induction items as [|[k v] items IH]; intros tr Hac; simpl.
  - rewrite app_nil_r. done.
  - destruct (IH (end_target now tr (k, v))) as (H1 & H2 & H3 & H4 & H5 & H6 & H7).
    { simpl. rewrite Hac. simpl. by rewrite decide_True. }
    rewrite H1, H2, H3, H4, H5, H6, H7. simpl.
    rewrite <- app_assoc. done.
Qed.

Lemma filter_no_live (m : gmap Z Z) :
  filter (fun kv : Z * Z => Dict.mem kv.2 ([] : Dict.t Z Info) = true) m = ∅.
Proof.
  apply map_eq. intros i. rewrite lookup_empty.
  apply map_lookup_filter_None. right. intros x _. simpl. done.
Qed.

(** What [_end_all_targets] does to the tracker: every live track is
    dropped and appended to [recent] in table order, the slot map is
    emptied; the index file and the set of closed history files are not
    touched. *)
Lemma end_all_targets_tracker clk g :
  let tr := tracker g in
  let tr' := tracker (end_all_targets clk g) in
  active tr' = [] /\ slot2ser tr' = ∅
  /\ recent tr' = recent tr ++ (archived (wall clk) <$> active tr)
  /\ TrackIndex tr' = TrackIndex tr /\ closed tr' = closed tr
  /\ serial_iter tr' = serial_iter tr.
Proof.
  destruct (end_targets_fold (wall clk) (active (tracker g)) (tracker g) eq_refl)
    as (H1 & H2 & H3 & H4 & H5 & H6 & H7).
  unfold end_all_targets. cbn [tracker active slot2ser recent TrackIndex closed serial_iter].
  rewrite H1, H2, H3, H5, H6, H7, filter_no_live. done.
Qed.

Lemma watchdog_fires clk g :
  data_lost g = false ->
  (mono clk - t_last_frame g > DATA_TIMEOUT_SEC)%R ->
  watchdog clk g
  = end_all_targets clk
      {| tracker := tracker g; latest := latest g; fastest := fastest g;
         t_last_frame := t_last_frame g; data_lost := true |}.
Proof.
  intros Hd Hgap. unfold watchdog. rewrite Hd, bool_decide_eq_true_2 by done. done.
Qed.

(** The watchdog block when it fires. *)
Lemma watchdog_fired_tracker clk g :
  data_lost g = false ->
  (mono clk - t_last_frame g > DATA_TIMEOUT_SEC)%R ->
  data_lost (watchdog clk g) = true
  /\ t_last_frame (watchdog clk g) = t_last_frame g
  /\ active (tracker (watchdog clk g)) = []
  /\ slot2ser (tracker (watchdog clk g)) = ∅
  /\ closed (tracker (watchdog clk g)) = closed (tracker g)
  /\ TrackIndex (tracker (watchdog clk g)) = TrackIndex (tracker g)
  /\ serial_iter (tracker (watchdog clk g)) = serial_iter (tracker g)
  /\ recent (tracker (watchdog clk g))
     = recent (tracker g) ++ (archived (wall clk) <$> active (tracker g)).
Proof.
  intros Hd Hgap. rewrite watchdog_fires by done.
  split; [reflexivity|]. split; [reflexivity|].
  pose proof (end_all_targets_tracker clk
                {| tracker := tracker g; latest := latest g; fastest := fastest g;
                   t_last_frame := t_last_frame g; data_lost := true |})
    as (H1 & H2 & H3 & H4 & H5 & H6).
  cbn [tracker] in *. done.
Qed.

(** [_on_frame] for one observation on a slot without a live track, no
    track being stale. *)
Lemma on_frame_new clk slot x y g :
  (slot2ser (tracker g) !! slot = None
   \/ exists ser, slot2ser (tracker g) !! slot = Some ser
                  /\ Dict.get ser (active (tracker g)) = None) ->
  (forall ser' info', Dict.get ser' (active (tracker g)) = Some info' ->
     ~ (mono clk - last_ts info' > END_TIMEOUT)%R) ->
  exists g' info',
    on_frame clk (one slot x y) g = inr g'
    /\ data_lost g' = false /\ t_last_frame g' = mono clk
    /\ slot2ser (tracker g') = <[slot := serial_iter (tracker g)]> (slot2ser (tracker g))
    /\ serial_iter (tracker g') = serial_iter (tracker g) + 1
    /\ recent (tracker g') = recent (tracker g)
    /\ closed (tracker g') = closed (tracker g)
    /\ active (tracker g')
       = Dict.set (serial_iter (tracker g)) info' (active (tracker g))
    /\ first info' = wall clk /\ last_ts info' = mono clk
    /\ TrackIndex (tracker g')
       = TrackIndex (tracker g) ++
           [[Datetime.isoformat_seconds (wall clk); label (serial_iter (tracker g));
             Datetime.isoformat_seconds (wall clk); "00:00:00.000"%string;
             fname info']].
Proof.
  intros Hs Hf.
  destruct (update_one_new clk slot x y [] (tracker g) Hs Hf)
    as (st' & info' & Hu & Hsl & Hsi & Hre & Hcl & Hac & Hfi & Hsp & Hacc & Hhi & Hla
        & Hti).
  unfold on_frame, one. rewrite Hu. cbn [bind ret fst snd].
  eexists. exists info'. split; [reflexivity|]. cbn [tracker data_lost t_last_frame].
  done.
Qed.


Ltac fresh_tracks Hac :=
  let ser := fresh "ser" in let info := fresh "info" in let Hg := fresh "Hg" in
  intros ser info Hg; rewrite Hac in Hg; cbn [Dict.get Dict.set] in Hg;
  repeat (case_decide; simplify_eq);
  repeat match goal with H : last_ts _ = _ |- _ => rewrite H end;
  unfold END_TIMEOUT; cbn [mono at_second]; lra.

(** Three tracks opened at second 0 on slots 1, 2 and 3. *)
Lemma three_tracks :
  exists g1 g2 g3 i1 i2 i3,
    on_frame (at_second 0) (one 1 100 0) fresh_gui = inr g1
    /\ on_frame (at_second 0) (one 2 200 0) g1 = inr g2
    /\ on_frame (at_second 0) (one 3 300 0) g2 = inr g3
    /\ data_lost g3 = false /\ t_last_frame g3 = IZR 0
    /\ active (tracker g3) = [(1, i1); (2, i2); (3, i3)]
    /\ recent (tracker g3) = [] /\ closed (tracker g3) = []
    /\ serial_iter (tracker g3) = 4
    /\ TrackIndex (tracker g3)
       = [index_header;
          ["1970-01-01T00:00:00"; "T1"; "1970-01-01T00:00:00"; "00:00:00.000"; fname i1];
          ["1970-01-01T00:00:00"; "T2"; "1970-01-01T00:00:00"; "00:00:00.000"; fname i2];
          ["1970-01-01T00:00:00"; "T3"; "1970-01-01T00:00:00"; "00:00:00.000"; fname i3]]%string.
Proof.
  destruct (on_frame_new (at_second 0) 1 100 0 fresh_gui)
    as (g1 & i1 & Hu1 & Hd1 & Ht1 & Hsl1 & Hsi1 & Hre1 & Hcl1 & Hac1 & Hfi1 & Hla1 & Hti1).
  { left. apply lookup_empty. }
  { intros ser info Hg. done. }
  cbn [tracker fresh_gui fresh_tracker slot2ser serial_iter recent closed active
       TrackIndex Dict.set] in *.
  destruct (on_frame_new (at_second 0) 2 200 0 g1)
    as (g2 & i2 & Hu2 & Hd2 & Ht2 & Hsl2 & Hsi2 & Hre2 & Hcl2 & Hac2 & Hfi2 & Hla2 & Hti2).
  { left. rewrite Hsl1. rewrite lookup_insert_ne by done. apply lookup_empty. }
  { fresh_tracks Hac1. }
  rewrite Hsl1, Hsi1, Hre1, Hcl1, Hac1, Hti1 in *.
  cbn [Dict.set] in Hac2. rewrite decide_False in Hac2 by done.
  destruct (on_frame_new (at_second 0) 3 300 0 g2)
    as (g3 & i3 & Hu3 & Hd3 & Ht3 & Hsl3 & Hsi3 & Hre3 & Hcl3 & Hac3 & Hfi3 & Hla3 & Hti3).
  { left. rewrite Hsl2. rewrite !lookup_insert_ne by done. apply lookup_empty. }
  { fresh_tracks Hac2. }
  rewrite Hsl2, Hsi2, Hre2, Hcl2, Hac2, Hti2 in *.
  cbn [Dict.set] in Hac3. rewrite !decide_False in Hac3 by done.
  exists g1, g2, g3, i1, i2, i3.
  rewrite Hac3, Hre3, Hcl3, Hsi3, Hti3. done.
Qed.

(** C4, where the code departs from it.  When the watchdog fires, every
    live track leaves the live table and the slot map is emptied, but the
    tracks are not expired the way the expiry loop does it: no history
    file is closed, the index file keeps its provisional rows, and the
    archive entries go to the end of the recent list. *)
Theorem watchdog_skips_files_and_index clk g :
  data_lost g = false ->
  (mono clk - t_last_frame g > DATA_TIMEOUT_SEC)%R ->
  data_lost (watchdog clk g) = true
  /\ active (tracker (watchdog clk g)) = []
  /\ slot2ser (tracker (watchdog clk g)) = ∅
  /\ closed (tracker (watchdog clk g)) = closed (tracker g)
  /\ TrackIndex (tracker (watchdog clk g)) = TrackIndex (tracker g)
  /\ recent (tracker (watchdog clk g))
     = recent (tracker g) ++ (archived (wall clk) <$> active (tracker g)).
Proof.
  intros Hd Hgap.
  destruct (watchdog_fired_tracker clk g Hd Hgap)
    as (H1 & _ & H2 & H3 & H4 & H5 & _ & H6).
  done.
Qed.

(** The theorem at three tracks opened at second 0, the watchdog looking
    at second 2: the three index rows still show the provisional
    duration and no history file was closed. *)
Lemma watchdog_skips_files_and_index_witness :
  exists g3 f1 f2 f3,
    active (tracker (watchdog (at_second 2) g3)) = []
    /\ closed (tracker (watchdog (at_second 2) g3)) = []
    /\ TrackIndex (tracker (watchdog (at_second 2) g3))
       = [index_header;
          ["1970-01-01T00:00:00"; "T1"; "1970-01-01T00:00:00"; "00:00:00.000"; f1];
          ["1970-01-01T00:00:00"; "T2"; "1970-01-01T00:00:00"; "00:00:00.000"; f2];
          ["1970-01-01T00:00:00"; "T3"; "1970-01-01T00:00:00"; "00:00:00.000"; f3]]%string
    /\ serial <$> recent (tracker (watchdog (at_second 2) g3)) = [1; 2; 3].
Proof.
  destruct three_tracks
    as (g1 & g2 & g3 & i1 & i2 & i3 & _ & _ & _ & Hd & Ht & Hac & Hre & Hcl & _ & Hti).
  destruct (watchdog_skips_files_and_index (at_second 2) g3 Hd)
    as (_ & H2 & _ & H4 & H5 & H6).
  { rewrite Ht. unfold DATA_TIMEOUT_SEC. cbn [mono at_second]. lra. }
  exists g3, (fname i1), (fname i2), (fname i3).
  rewrite H2, H4, H5, H6, Hcl, Hti, Hre, Hac. done.
Defined.

(** C7, where the code departs from it.  Three tracks are opened at
    second 0, the stream stops and the watchdog archives them at second
    2; a fourth track is opened at second 3 and archived by the watchdog
    at second 5.  The recent list then holds four entries, the newest
    one last. *)
Theorem watchdog_archive_exceeds_three :
  exists g1 g2 g3 g5,
    on_frame (at_second 0) (one 1 100 0) fresh_gui = inr g1
    /\ on_frame (at_second 0) (one 2 200 0) g1 = inr g2
    /\ on_frame (at_second 0) (one 3 300 0) g2 = inr g3
    /\ on_frame (at_second 3) (one 1 100 0) (watchdog (at_second 2) g3) = inr g5
    /\ (serial <$> recent (tracker (watchdog (at_second 5) g5))) = [1; 2; 3; 4]
    /\ (r_last <$> recent (tracker (watchdog (at_second 5) g5)))
       = [2000000; 2000000; 2000000; 5000000]
    /\ length (recent (tracker (watchdog (at_second 5) g5))) = 4%nat.
Proof.
  destruct three_tracks
    as (g1 & g2 & g3 & i1 & i2 & i3 & Hu1 & Hu2 & Hu3 & Hd & Ht & Hac & Hre & Hcl
        & Hsi & Hti).
  destruct (watchdog_fired_tracker (at_second 2) g3 Hd)
    as (Hd4 & Ht4 & Hac4 & Hsl4 & Hcl4 & Hti4 & Hsi4 & Hre4).
  { rewrite Ht. unfold DATA_TIMEOUT_SEC. cbn [mono at_second]. lra. }
  destruct (on_frame_new (at_second 3) 1 100 0 (watchdog (at_second 2) g3))
    as (g5 & i4 & Hu5 & Hd5 & Ht5 & Hsl5 & Hsi5 & Hre5 & Hcl5 & Hac5 & Hfi5 & Hla5 & Hti5).
  { left. rewrite Hsl4. apply lookup_empty. }
  { intros ser info Hg. rewrite Hac4 in Hg. done. }
  destruct (watchdog_fired_tracker (at_second 5) g5 Hd5)
    as (_ & _ & _ & _ & _ & _ & _ & Hre6).
  { rewrite Ht5. unfold DATA_TIMEOUT_SEC. cbn [mono at_second]. lra. }
  exists g1, g2, g3, g5. split; [done|]. split; [done|]. split; [done|].
  split; [done|].
  rewrite Hre6, Hre5, Hre4, Hre, Hac5, Hac4, Hsi4, Hsi, Hac. cbn.
  done.
Qed.

End Watchdog.

(** ** Replay seek *)


Section Replay.
Import Py RadarPlaybackGUI ReplaySpec.












End Replay.
